(** * The Intcode computer of [day17/intcode.py]

    A shallow embedding of the class [IntcodeComputer]: its numpy [int64]
    memory, the decoding of a full opcode through its decimal text, the
    resolution of operands ([follow_pointers]), the ten opcode methods and
    the [run] / [resume] loop.

    Conventions.
    - The object [self] is a record [state]; a method is a function from
      the state to an [exec]: either a returned value with the new state,
      or a raised Python exception with the state at the raise.
    - [self.code] is a numpy [int64] array: a [list Z] whose cells stay in
      the [int64] range; the sums and products the program computes wrap
      around ([wrap64]).  A negative index counts from the end of the array,
      an index outside [-n, n) raises [IndexError].
    - The attributes [self.input] and [self.output] (which hide the methods
      of the same names on the instance) are the fields [input_queue] and
      [output_log]; the methods keep the names [input] and [output].
    - The [while] loop of [run] takes fuel: one unit per executed
      instruction. *)

From Stdlib Require Import ZArith String Ascii List Lia DecimalString.
From Stdlib Require DecimalFacts DecimalPos.
From stdpp Require Import base list.

Open Scope Z_scope.

(** ** Python exceptions *)

Inductive pyerror : Type :=
| IndexError_bounds   (* numpy: index out of bounds for the axis *)
| IndexError_list     (* list index out of range *)
| IndexError_pop      (* pop from empty list *)
| KeyError            (* opcode_dict[opcode] *)
| ValueError_unpack   (* wrong number of values to unpack *)
| ValueError_literal  (* int(): invalid literal *)
| ValueError_shape    (* numpy: could not broadcast input array *)
| ValueError_negdim   (* numpy: negative dimensions are not allowed *)
| TypeError           (* int() argument is None *)
| OverflowError.      (* Python int too large to convert to C long *)

Inductive result (A : Type) : Type :=
| Ok (a : A)
| Err (e : pyerror).
Arguments Ok {A} a.
Arguments Err {A} e.

Definition rbind {A B : Type} (r : result A) (k : A -> result B) : result B :=
  match r with
  | Ok a => k a
  | Err e => Err e
  end.

Notation "x <-? r ; k" := (rbind r (fun x => k))
  (at level 100, r at next level, right associativity).

(** ** Values *)

(** What a caller may put in the input queue: [None] (the default argument
    of [run]) or an integer. *)
Inductive pyval : Type :=
| PyNone
| PyInt (z : Z).

(** The argument [input_value] of [run] and [resume]: a list is taken as it
    is, anything else becomes a one-element list. *)
Inductive pyinput : Type :=
| InList (l : list pyval)
| InScalar (v : pyval).

Definition int64_min : Z := - 2 ^ 63.
Definition int64_max : Z := 2 ^ 63 - 1.

Definition in_int64 (z : Z) : bool := (int64_min <=? z) && (z <=? int64_max).

(** Two's complement wrap-around of [int64] arithmetic. *)
Definition wrap64 (z : Z) : Z := (z + 2 ^ 63) mod 2 ^ 64 - 2 ^ 63.

Definition add64 (a b : Z) : Z := wrap64 (a + b).
Definition mul64 (a b : Z) : Z := wrap64 (a * b).

Definition len {A : Type} (l : list A) : Z := Z.of_nat (length l).

(** ** numpy arrays *)

(** The cell an integer index denotes in an array of [n] cells. *)
Definition np_index (n i : Z) : option nat :=
  if (0 <=? i) && (i <? n) then Some (Z.to_nat i)
  else if (- n <=? i) && (i <? 0) then Some (Z.to_nat (i + n))
  else None.

(** [a[i]] *)
Definition np_getitem (a : list Z) (i : Z) : result Z :=
  match np_index (len a) i with
  | Some k => match a !! k with
              | Some v => Ok v
              | None => Err IndexError_bounds
              end
  | None => Err IndexError_bounds
  end.

(** [a[i] = v] for an [int64] value [v] *)
Definition np_setitem (a : list Z) (i : Z) (v : Z) : result (list Z) :=
  match np_index (len a) i with
  | Some k => Ok (<[k:=v]> a)
  | None => Err IndexError_bounds
  end.

(** [a[i] = v] for a Python object [v]: the index is checked first, then
    the object is converted to [int64]. *)
Definition np_setitem_obj (a : list Z) (i : Z) (v : pyval) : result (list Z) :=
  match np_index (len a) i with
  | Some k =>
      match v with
      | PyNone => Err TypeError
      | PyInt z => if in_int64 z then Ok (<[k:=z]> a) else Err OverflowError
      end
  | None => Err IndexError_bounds
  end.

(** A bound of a slice, brought into [0, n]. *)
Definition slice_bound (n x : Z) : Z :=
  if x <? 0 then Z.max (x + n) 0 else Z.min x n.

(** [a[start:stop]] *)
Definition np_slice (a : list Z) (start stop : Z) : list Z :=
  let s := slice_bound (len a) start in
  let e := slice_bound (len a) stop in
  take (Z.to_nat (e - s)) (drop (Z.to_nat s) a).

(** [a[:stop] = src]: the source must have the shape of the slice, or one
    element, which is then broadcast over the slice. *)
Definition np_setslice_prefix (a : list Z) (stop : Z) (src : list Z)
  : result (list Z) :=
  let d := Z.to_nat (slice_bound (len a) stop) in
  if (length src =? d)%nat then Ok (src ++ drop d a)
  else match src with
       | [v] => Ok (replicate d v ++ drop d a)
       | _ => Err ValueError_shape
       end.

(** [np.array(code, dtype='int')] *)
Definition np_array (l : list Z) : result (list Z) :=
  if forallb in_int64 l then Ok l else Err OverflowError.

(** [np.zeros(n, dtype='int64')] *)
Definition np_zeros (n : Z) : result (list Z) :=
  if n <? 0 then Err ValueError_negdim else Ok (replicate (Z.to_nat n) 0).

(** ** Decimal text *)

(** [str(z)] *)
Definition str (z : Z) : list ascii :=
  list_ascii_of_string (NilZero.string_of_int (Z.to_int z)).

(** [int(s)] for a string *)
Definition int_of_str (s : list ascii) : result Z :=
  match NilZero.int_of_string (string_of_list_ascii s) with
  | Some d => Ok (Z.of_int d)
  | None => Err ValueError_literal
  end.

(** [s[:-2]] *)
Definition drop_last2 {A : Type} (s : list A) : list A :=
  take (length s - 2)%nat s.

(** [s[-2:]] *)
Definition last2 {A : Type} (s : list A) : list A :=
  drop (length s - 2)%nat s.

(** [[f(x) for x in l]] where [f] may raise *)
Fixpoint comprehension {A B : Type} (f : A -> result B) (l : list A)
  : result (list B) :=
  match l with
  | [] => Ok []
  | x :: l' => y <-? f x; ys <-? comprehension f l'; Ok (y :: ys)
  end.

(** ** The machine *)

Record state : Type := mkState {
  code : list Z;
  pointer : Z;
  relative_base : Z;
  input_queue : list pyval;
  output_log : list Z;
  allow_pausing : bool;
  unpaused_flag : bool;
  continue_flag : bool
}.

Definition set_code (c : list Z) (s : state) : state :=
  mkState c (pointer s) (relative_base s) (input_queue s) (output_log s)
          (allow_pausing s) (unpaused_flag s) (continue_flag s).
Definition set_pointer (p : Z) (s : state) : state :=
  mkState (code s) p (relative_base s) (input_queue s) (output_log s)
          (allow_pausing s) (unpaused_flag s) (continue_flag s).
Definition set_relative_base (b : Z) (s : state) : state :=
  mkState (code s) (pointer s) b (input_queue s) (output_log s)
          (allow_pausing s) (unpaused_flag s) (continue_flag s).
Definition set_input_queue (q : list pyval) (s : state) : state :=
  mkState (code s) (pointer s) (relative_base s) q (output_log s)
          (allow_pausing s) (unpaused_flag s) (continue_flag s).
Definition set_output_log (o : list Z) (s : state) : state :=
  mkState (code s) (pointer s) (relative_base s) (input_queue s) o
          (allow_pausing s) (unpaused_flag s) (continue_flag s).
Definition set_unpaused_flag (b : bool) (s : state) : state :=
  mkState (code s) (pointer s) (relative_base s) (input_queue s) (output_log s)
          (allow_pausing s) b (continue_flag s).
Definition set_continue_flag (b : bool) (s : state) : state :=
  mkState (code s) (pointer s) (relative_base s) (input_queue s) (output_log s)
          (allow_pausing s) (unpaused_flag s) b.

(** The outcome of a method: a value and the state it leaves, or an
    exception and the state at the raise. *)
Inductive exec (A : Type) : Type :=
| Return (a : A) (s : state)
| Raise (e : pyerror) (s : state).
Arguments Return {A} a s.
Arguments Raise {A} e s.

(** The run status of the specification, read off the two flags. *)
Inductive status : Type := Running | Paused | Halted.

Definition status_of (s : state) : status :=
  if negb (continue_flag s) then Halted
  else if negb (unpaused_flag s) then Paused
  else Running.

(** *** Construction *)

Definition initialize_code (s : state) (program : list Z) : result state :=
  init_code <-? np_array program;
  c <-? np_setslice_prefix (code s) (len init_code) init_code;
  Ok (set_continue_flag true (set_pointer 0 (set_code c s))).

(** [IntcodeComputer(fname=program, allow_pausing=..., code_size=...)] with
    a list for [fname] and the default [dtype].  The attributes [pointer]
    and [continue_flag] do not exist before [initialize_code] sets them. *)
Definition __init__ (program : list Z) (allow : bool) (code_size : Z)
  : result state :=
  zeros <-? np_zeros code_size;
  initialize_code (mkState zeros 0 0 [] [] allow true false) program.

(** *** Decoding *)

Definition int_of_char (c : ascii) : result Z := int_of_str [c].

Definition parse_full_opcode (full_opcode : Z) : result (list Z * Z) :=
  parameters <-? comprehension int_of_char (rev (drop_last2 (str full_opcode)));
  opcode <-? int_of_str (last2 (str full_opcode));
  Ok (parameters, opcode).

Definition check_modes_length (modes : list Z) (num_args : nat) : list Z :=
  if (length modes <? num_args)%nat
  then modes ++ replicate (num_args - length modes) 0
  else modes.

(** [l[i]] and [l[-1]] on a Python list or a numpy array that is indexed
    by a loop counter *)
Definition getitem (e : pyerror) (l : list Z) (i : nat) : result Z :=
  match l !! i with
  | Some v => Ok v
  | None => Err e
  end.

Definition getlast (e : pyerror) (l : list Z) : result Z :=
  match last l with
  | Some v => Ok v
  | None => Err e
  end.

(** The body of [for i in range(len(args) - 1)], over the indices [idx]
    that remain. *)
Fixpoint follow_loop (s : state) (modes : list Z) (idx : list nat)
    (args : list Z) : result (list Z) :=
  match idx with
  | [] => Ok args
  | i :: idx' =>
      arg <-? getitem IndexError_bounds args i;
      mode <-? getitem IndexError_list modes i;
      if mode =? 0 then
        v <-? np_getitem (code s) arg;
        follow_loop s modes idx' (<[i:=v]> args)
      else if mode =? 2 then
        v <-? np_getitem (code s) (add64 (relative_base s) arg);
        follow_loop s modes idx' (<[i:=v]> args)
      else follow_loop s modes idx' args
  end.

Definition follow_pointers (s : state) (modes : list Z) (num_args : nat)
    (has_output : bool) : result (list Z) :=
  let modes := check_modes_length modes num_args in
  let args := np_slice (code s) (pointer s + 1)
                       (pointer s + 1 + Z.of_nat num_args) in
  args <-? follow_loop s modes (seq 0 (length args - 1)) args;
  last_arg <-? getlast IndexError_bounds args;
  last_mode <-? getlast IndexError_list modes;
  let i_last := (length args - 1)%nat in
  if has_output then
    if last_mode =? 2
    then Ok (<[i_last := add64 last_arg (relative_base s)]> args)
    else Ok args
  else
    if last_mode =? 0 then
      v <-? np_getitem (code s) last_arg;
      Ok (<[i_last := v]> args)
    else if last_mode =? 2 then
      v <-? np_getitem (code s) (add64 (relative_base s) last_arg);
      Ok (<[i_last := v]> args)
    else Ok args.

(** *** Opcode methods

    Each returns the amount [run] adds to the pointer. *)

Definition add (modes : list Z) (s : state) : exec Z :=
  match follow_pointers s modes 3 true with
  | Err e => Raise e s
  | Ok [arg1; arg2; output_index] =>
      match np_setitem (code s) output_index (add64 arg1 arg2) with
      | Ok c => Return 4 (set_code c s)
      | Err e => Raise e s
      end
  | Ok _ => Raise ValueError_unpack s
  end.

Definition multiply (modes : list Z) (s : state) : exec Z :=
  match follow_pointers s modes 3 true with
  | Err e => Raise e s
  | Ok [arg1; arg2; output_index] =>
      match np_setitem (code s) output_index (mul64 arg1 arg2) with
      | Ok c => Return 4 (set_code c s)
      | Err e => Raise e s
      end
  | Ok _ => Raise ValueError_unpack s
  end.

(** The right-hand side [self.input.pop(0)] is evaluated before the store:
    an exception of the store leaves the queue one element shorter. *)
Definition input (modes : list Z) (s : state) : exec Z :=
  match follow_pointers s modes 1 true with
  | Err e => Raise e s
  | Ok args =>
      match getitem IndexError_bounds args 0 with
      | Err e => Raise e s
      | Ok arg1 =>
          match input_queue s with
          | [] => Raise IndexError_pop s
          | v :: q =>
              let s1 := set_input_queue q s in
              match np_setitem_obj (code s1) arg1 v with
              | Ok c => Return 2 (set_code c s1)
              | Err e => Raise e s1
              end
          end
      end
  end.

Definition output (modes : list Z) (s : state) : exec Z :=
  match follow_pointers s modes 1 false with
  | Err e => Raise e s
  | Ok args =>
      match getitem IndexError_bounds args 0 with
      | Err e => Raise e s
      | Ok arg1 =>
          let s1 := set_output_log (output_log s ++ [arg1]) s in
          if allow_pausing s1
          then Return 2 (set_unpaused_flag false s1)
          else Return 2 s1
      end
  end.

Definition jump_if_true (modes : list Z) (s : state) : exec Z :=
  match follow_pointers s modes 2 false with
  | Err e => Raise e s
  | Ok [arg1; arg2] =>
      if negb (arg1 =? 0) then Return 0 (set_pointer arg2 s) else Return 3 s
  | Ok _ => Raise ValueError_unpack s
  end.

Definition jump_if_false (modes : list Z) (s : state) : exec Z :=
  match follow_pointers s modes 2 false with
  | Err e => Raise e s
  | Ok [arg1; arg2] =>
      if arg1 =? 0 then Return 0 (set_pointer arg2 s) else Return 3 s
  | Ok _ => Raise ValueError_unpack s
  end.

Definition less_than (modes : list Z) (s : state) : exec Z :=
  match follow_pointers s modes 3 true with
  | Err e => Raise e s
  | Ok [arg1; arg2; arg3] =>
      match np_setitem (code s) arg3 (if arg1 <? arg2 then 1 else 0) with
      | Ok c => Return 4 (set_code c s)
      | Err e => Raise e s
      end
  | Ok _ => Raise ValueError_unpack s
  end.

Definition equals (modes : list Z) (s : state) : exec Z :=
  match follow_pointers s modes 3 true with
  | Err e => Raise e s
  | Ok [arg1; arg2; arg3] =>
      match np_setitem (code s) arg3 (if arg1 =? arg2 then 1 else 0) with
      | Ok c => Return 4 (set_code c s)
      | Err e => Raise e s
      end
  | Ok _ => Raise ValueError_unpack s
  end.

Definition shift (modes : list Z) (s : state) : exec Z :=
  match follow_pointers s modes 1 false with
  | Err e => Raise e s
  | Ok [arg1] => Return 2 (set_relative_base (add64 (relative_base s) arg1) s)
  | Ok _ => Raise ValueError_unpack s
  end.

Definition halt (parameters : list Z) (s : state) : exec Z :=
  Return 1 (set_continue_flag false s).

(** *** Dispatch *)

Definition opcode_dict (opcode : Z) : option (list Z -> state -> exec Z) :=
  match opcode with
  | 1 => Some add
  | 2 => Some multiply
  | 3 => Some input
  | 4 => Some output
  | 5 => Some jump_if_true
  | 6 => Some jump_if_false
  | 7 => Some less_than
  | 8 => Some equals
  | 9 => Some shift
  | 99 => Some halt
  | _ => None
  end.

Definition operate (full_opcode : Z) (s : state) : exec Z :=
  match parse_full_opcode full_opcode with
  | Err e => Raise e s
  | Ok (parameters, opcode) =>
      match opcode_dict opcode with
      | None => Raise KeyError s
      | Some opfunc => opfunc parameters s
      end
  end.

(** One turn of the [while] loop of [run]: fetch, [operate], then add the
    returned width to the pointer [operate] has left.  The pointer the fetch
    has accepted is an index of the memory, and a jump target gets width 0:
    the sum stays far inside [int64] and is written without [wrap64]. *)
Definition run_body (s : state) : exec unit :=
  match np_getitem (code s) (pointer s) with
  | Err e => Raise e s
  | Ok full_opcode =>
      match operate full_opcode s with
      | Raise e s' => Raise e s'
      | Return toadd s' => Return tt (set_pointer (pointer s' + toadd) s')
      end
  end.

(** What a call of [run] comes to: it returns, an exception escapes, or the
    fuel is spent while the loop condition still holds. *)
Inductive run_result : Type :=
| Finished (s : state)
| Raised (e : pyerror) (s : state)
| OutOfFuel.

Fixpoint run_loop (fuel : nat) (s : state) : run_result :=
  if continue_flag s && unpaused_flag s then
    match fuel with
    | O => OutOfFuel
    | S fuel' =>
        match run_body s with
        | Raise e s' => Raised e s'
        | Return _ s' => run_loop fuel' s'
        end
    end
  else Finished s.

Definition input_list (input_value : pyinput) : list pyval :=
  match input_value with
  | InList l => l
  | InScalar v => [v]
  end.

Definition run (fuel : nat) (input_value : pyinput) (s : state) : run_result :=
  run_loop fuel (set_input_queue (input_list input_value) s).

Definition resume (fuel : nat) (input_value : pyinput) (s : state)
  : run_result :=
  run fuel input_value (set_unpaused_flag true s).

(** ** Vocabulary of the statements *)

(** The [if] / [elif] chain on one read operand, as [follow_pointers] has
    it in its loop and again for a last operand that is read. *)
Definition read_operand (s : state) (mode arg : Z) : result Z :=
  if mode =? 0 then np_getitem (code s) arg
  else if mode =? 2 then np_getitem (code s) (add64 (relative_base s) arg)
  else Ok arg.

(** The cell that holds operand [i] of the instruction at the pointer. *)
Definition operand (s : state) (i : nat) : option Z :=
  code s !! (Z.to_nat (pointer s + 1) + i)%nat.

(** An address numpy accepts in the memory of [s]. *)
Definition valid_address (s : state) (a : Z) : Prop :=
  - len (code s) <= a < len (code s).

(** What [follow_pointers] makes of one operand: the last operand of an
    instruction that stores ([write_target]) stays an address, every other
    operand is read. *)
Definition resolve (s : state) (write_target : bool) (mode arg : Z)
  : result Z :=
  if write_target
  then Ok (if mode =? 2 then add64 arg (relative_base s) else arg)
  else read_operand s mode arg.

(** The instruction at the pointer has all its [num_args] operand cells in
    memory, and no more mode digits than operands. *)
Definition well_formed (s : state) (modes : list Z) (num_args : nat) : Prop :=
  (1 <= num_args)%nat /\ (length modes <= num_args)%nat /\
  0 <= pointer s + 1 /\ pointer s + 1 + Z.of_nat num_args <= len (code s).

(** The memory cells and the relative base are [int64] values. *)
Definition int64_state (s : state) : Prop :=
  Forall (fun z => in_int64 z = true) (code s) /\
  in_int64 (relative_base s) = true.

(** The value and the character of a decimal digit. *)
Definition digit_val (d : DecimalFacts.digits) : Z :=
  match d with
  | DecimalFacts.d0 => 0 | DecimalFacts.d1 => 1 | DecimalFacts.d2 => 2
  | DecimalFacts.d3 => 3 | DecimalFacts.d4 => 4 | DecimalFacts.d5 => 5
  | DecimalFacts.d6 => 6 | DecimalFacts.d7 => 7 | DecimalFacts.d8 => 8
  | DecimalFacts.d9 => 9
  end.

Definition digit_ascii (d : DecimalFacts.digits) : ascii :=
  match d with
  | DecimalFacts.d0 => "0" | DecimalFacts.d1 => "1" | DecimalFacts.d2 => "2"
  | DecimalFacts.d3 => "3" | DecimalFacts.d4 => "4" | DecimalFacts.d5 => "5"
  | DecimalFacts.d6 => "6" | DecimalFacts.d7 => "7" | DecimalFacts.d8 => "8"
  | DecimalFacts.d9 => "9"
  end%char.

(** The number that a list of digits writes, least significant first. *)
Fixpoint le_value (ds : list Z) : Z :=
  match ds with
  | [] => 0
  | d :: ds' => d + 10 * le_value ds'
  end.

(** The number of operand cells each opcode method asks of
    [follow_pointers] ([halt] asks for none). *)
Definition arity (opcode : Z) : Z :=
  match opcode with
  | 1 | 2 | 7 | 8 => 3
  | 5 | 6 => 2
  | 3 | 4 | 9 => 1
  | _ => 0
  end.

(** The state a call leaves behind, when it returns or raises. *)
Definition final_state (r : run_result) : option state :=
  match r with
  | Finished s | Raised _ s => Some s
  | OutOfFuel => None
  end.

(** The cells [follow_pointers] fetches for an instruction of [num_args]
    operands: the slice behind the pointer, cut at the end of the memory. *)
Definition fetched (s : state) (num_args : nat) : list Z :=
  np_slice (code s) (pointer s + 1) (pointer s + 1 + Z.of_nat num_args).

(** The opcode methods that call [follow_pointers] with [has_output] left
    at [True]: their last operand is a store address. *)
Definition stores (opcode : Z) : bool :=
  match opcode with
  | 1 | 2 | 3 | 7 | 8 => true
  | _ => false
  end.



(** ** Concrete runs *)

Definition scalar (z : Z) : pyinput := InScalar (PyInt z).

Definition code_of (r : run_result) : list Z :=
  match r with
  | Finished s | Raised _ s => code s
  | OutOfFuel => []
  end.

Definition load_run (program : list Z) (allow : bool) (code_size : Z)
    (fuel : nat) (input_value : pyinput) : run_result :=
  match __init__ program allow code_size with
  | Ok s => run fuel input_value s
  | Err e => Raised e (mkState [] 0 0 [] [] allow true false)
  end.

(** A machine that has paused after its first output: the program
    [104,1,104,2,99] with pausing allowed, after [run(0)]. *)
Definition paused_example : state :=
  mkState [104; 1; 104; 2; 99; 0; 0; 0] 2 0 [PyInt 0] [1] true false true.

(** The add instruction [11101,4,5,0]: all three modes are 1. *)
Definition immediate_target_example : state :=
  mkState [11101; 4; 5; 0; 99] 0 0 [] [] false true true.

(** The add instruction [1101,4,5,-1] in a memory of six cells. *)
Definition negative_target_example : state :=
  mkState [1101; 4; 5; -1; 99; 0] 0 0 [] [] false true true.

(** The jump [1105,1,4,99,1,0] of the specification. *)
Definition jump_example : state :=
  mkState [1105; 1; 4; 99; 1; 0] 0 0 [] [] false true true.

(** Three output instructions, then halt. *)
Definition three_outputs : list Z := [104; 11; 104; 22; 104; 33; 99].

(** The machine of [three_outputs] in ten cells with pausing allowed, at
    pointer [p] with the output log [out]. *)
Definition three_outputs_at (p : Z) (q : list pyval) (out : list Z)
    (unpaused continue : bool) : state :=
  mkState (three_outputs ++ [0; 0; 0]) p 0 q out true unpaused continue.

(** The multiply instruction [1002,4,3,4] followed by [33]. *)
Definition multiply_example : state :=
  mkState [1002; 4; 3; 4; 33] 0 0 [] [] false true true.

(** The program [3,0,3,1,99] after its first input instruction has taken
    the only value supplied. *)
Definition input_example : state :=
  mkState [1; 0; 3; 1; 99; 0] 2 0 [] [] false true true.

(** The program [1101,4,5,9,99], whose store address 9 is beyond its six
    cells. *)
Definition far_target_example : state :=
  mkState [1101; 4; 5; 9; 99; 0] 0 0 [] [] false true true.



Definition extra_digit_add_example : state :=
  mkState [211101; 4; 5; 0; 99; 0; 0; 0] 0 6 [] [] false true true.

Definition extra_digit_output_example : state :=
  mkState [10004; 1000; 99] 0 0 [] [] false true true.

(** * Properties *)

(** ** Arithmetic and arrays *)

Lemma wrap64_small (z : Z) : in_int64 z = true -> wrap64 z = z.
Proof.
  unfold in_int64, int64_min, int64_max, wrap64. intros H.
  apply andb_true_iff in H as [H1 H2].
  apply Z.leb_le in H1, H2.
  rewrite Z.mod_small by lia. lia.
Qed.

Lemma wrap64_in_int64 (z : Z) : in_int64 (wrap64 z) = true.
Proof.
  unfold in_int64, int64_min, int64_max, wrap64.
  pose proof (Z.mod_pos_bound (z + 2 ^ 63) (2 ^ 64) ltac:(lia)) as H.
  apply andb_true_iff. split; apply Z.leb_le; lia.
Qed.

Lemma np_index_Some (n i : Z) (k : nat) :
  np_index n i = Some k -> - n <= i < n /\ (k < Z.to_nat n)%nat.
Proof.
  unfold np_index. intros Hidx.
  destruct (Z.leb_spec 0 i), (Z.ltb_spec i n); simpl in Hidx;
    try (destruct (Z.leb_spec (- n) i); simpl in Hidx);
    try (destruct (Z.ltb_spec i 0); simpl in Hidx);
    try discriminate; injection Hidx as <-.
  all: lia.
Qed.

Lemma np_index_None (n i : Z) : np_index n i = None <-> ~ (- n <= i < n).
Proof.
  unfold np_index.
  destruct (Z.leb_spec 0 i), (Z.ltb_spec i n); simpl;
    try (destruct (Z.leb_spec (- n) i); simpl);
    try (destruct (Z.ltb_spec i 0); simpl);
    split; intros Hidx; try discriminate; try reflexivity; try lia;
    exfalso; apply Hidx; lia.
Qed.

Lemma np_index_nonneg (n i : Z) :
  0 <= i < n -> np_index n i = Some (Z.to_nat i).
Proof.
  intros Hidx. unfold np_index.
  destruct (Z.leb_spec 0 i), (Z.ltb_spec i n); simpl; try reflexivity; lia.
Qed.

Lemma np_getitem_range (a : list Z) (i : Z) :
  - len a <= i < len a <-> exists v, np_getitem a i = Ok v.
Proof.
  unfold np_getitem. split.
  - intros H. destruct (np_index (len a) i) as [k|] eqn:E.
    + apply np_index_Some in E as [_ Hk]. unfold len in Hk.
      rewrite Nat2Z.id in Hk.
      destruct (lookup_lt_is_Some_2 a k Hk) as [v ->]. eauto.
    + apply np_index_None in E. contradiction.
  - intros [v H]. destruct (np_index (len a) i) as [k|] eqn:E.
    + apply np_index_Some in E. tauto.
    + discriminate.
Qed.

Lemma np_getitem_error (a : list Z) (i : Z) (e : pyerror) :
  np_getitem a i = Err e -> e = IndexError_bounds.
Proof.
  unfold np_getitem. destruct (np_index (len a) i); [destruct (a !! n)|];
    congruence.
Qed.

Lemma np_getitem_outside (a : list Z) (i : Z) :
  ~ (- len a <= i < len a) -> np_getitem a i = Err IndexError_bounds.
Proof.
  intros H. destruct (np_getitem a i) as [v|e] eqn:E.
  - exfalso. apply H. apply np_getitem_range. eauto.
  - apply np_getitem_error in E as ->. reflexivity.
Qed.

Lemma np_setitem_outside (a : list Z) (i v : Z) :
  ~ (- len a <= i < len a) -> np_setitem a i v = Err IndexError_bounds.
Proof.
  intros H. apply np_index_None in H. unfold np_setitem. rewrite H.
  reflexivity.
Qed.

Lemma np_setitem_obj_outside (a : list Z) (i : Z) (v : pyval) :
  ~ (- len a <= i < len a) -> np_setitem_obj a i v = Err IndexError_bounds.
Proof.
  intros H. apply np_index_None in H. unfold np_setitem_obj. rewrite H.
  reflexivity.
Qed.

(** ** Operand resolution *)

Section FollowPointers.

Variable s : state.

Lemma read_operand_error (mode arg : Z) (e : pyerror) :
  read_operand s mode arg = Err e -> e = IndexError_bounds.
Proof.
  unfold read_operand.
  destruct (mode =? 0); [apply np_getitem_error|].
  destruct (mode =? 2); [apply np_getitem_error|]. discriminate.
Qed.

Lemma follow_loop_cons (modes : list Z) (i : nat) (idx : list nat)
    (args : list Z) :
  follow_loop s modes (i :: idx) args =
    (arg <-? getitem IndexError_bounds args i;
     mode <-? getitem IndexError_list modes i;
     v <-? read_operand s mode arg;
     follow_loop s modes idx (<[i:=v]> args)).
Proof.
  simpl. unfold getitem, read_operand.
  destruct (args !! i) as [arg|] eqn:Ha; simpl; [|reflexivity].
  destruct (modes !! i) as [mode|]; simpl; [|reflexivity].
  destruct (mode =? 0); [reflexivity|].
  destruct (mode =? 2); [reflexivity|].
  simpl. rewrite list_insert_id by assumption. reflexivity.
Qed.

Lemma follow_loop_spec (modes : list Z) (idx : list nat) :
  forall args res : list Z,
    NoDup idx ->
    follow_loop s modes idx args = Ok res ->
    length res = length args /\
    (forall i, i ∉ idx -> res !! i = args !! i) /\
    (forall i, i ∈ idx ->
       exists arg mode v,
         args !! i = Some arg /\ modes !! i = Some mode /\
         read_operand s mode arg = Ok v /\ res !! i = Some v).
Proof.
  induction idx as [|i idx IH]; intros args res Hnd Hrun.
  - injection Hrun as <-. split; [reflexivity|]. split.
    + reflexivity.
    + intros i Hi. inversion Hi.
  - rewrite follow_loop_cons in Hrun. unfold getitem in Hrun.
    destruct (args !! i) as [arg|] eqn:Ha; simpl in Hrun; [|discriminate].
    destruct (modes !! i) as [mode|] eqn:Hm; simpl in Hrun; [|discriminate].
    destruct (read_operand s mode arg) as [v|] eqn:Hv; simpl in Hrun;
      [|discriminate].
    apply NoDup_cons in Hnd as [Hi Hnd].
    destruct (IH _ _ Hnd Hrun) as (Hlen & Hout & Hin).
    rewrite length_insert in Hlen.
    assert (Hlt : (i < length args)%nat) by (eapply lookup_lt_Some; eauto).
    split; [assumption|]. split.
    + intros j Hj. apply not_elem_of_cons in Hj as [Hne Hj].
      rewrite (Hout j Hj). apply list_lookup_insert_ne. congruence.
    + intros j Hj. apply elem_of_cons in Hj as [->|Hj].
      * exists arg, mode, v. repeat split; try assumption.
        rewrite (Hout i Hi). apply list_lookup_insert_eq. assumption.
      * destruct (Hin j Hj) as (a & m & w & H1 & H2 & H3 & H4).
        exists a, m, w. repeat split; try assumption.
        rewrite list_lookup_insert_ne in H1; [assumption|].
        intros ->. contradiction.
Qed.

Lemma follow_loop_total (modes : list Z) (idx : list nat) :
  forall args : list Z,
    NoDup idx ->
    (forall i, i ∈ idx ->
       exists arg mode v,
         args !! i = Some arg /\ modes !! i = Some mode /\
         read_operand s mode arg = Ok v) ->
    exists res, follow_loop s modes idx args = Ok res.
Proof.
  induction idx as [|i idx IH]; intros args Hnd Hall.
  - eexists. reflexivity.
  - rewrite follow_loop_cons. unfold getitem.
    destruct (Hall i) as (arg & mode & v & Ha & Hm & Hv); [left|].
    rewrite Ha, Hm. simpl. rewrite Hv. simpl.
    apply NoDup_cons in Hnd as [Hi Hnd].
    apply IH; [assumption|]. intros j Hj.
    destruct (Hall j) as (a & m & w & H1 & H2 & H3); [right; assumption|].
    exists a, m, w. repeat split; try assumption.
    rewrite list_lookup_insert_ne; [assumption|].
    intros ->. contradiction.
Qed.

Lemma follow_loop_error (modes : list Z) (idx : list nat) (e : pyerror) :
  forall args : list Z,
    (forall i, i ∈ idx -> (i < length args)%nat /\ (i < length modes)%nat) ->
    follow_loop s modes idx args = Err e ->
    e = IndexError_bounds.
Proof.
  induction idx as [|i idx IH]; intros args Hall Hrun; [discriminate|].
  rewrite follow_loop_cons in Hrun. unfold getitem in Hrun.
  destruct (Hall i) as [Ha Hm]; [left|].
  apply lookup_lt_is_Some_2 in Ha as [arg Ha].
  apply lookup_lt_is_Some_2 in Hm as [mode Hm].
  rewrite Ha, Hm in Hrun. simpl in Hrun.
  destruct (read_operand s mode arg) as [v|e'] eqn:Hv; simpl in Hrun.
  - eapply IH; [|eassumption]. intros j Hj. rewrite length_insert.
    apply Hall. right. assumption.
  - injection Hrun as <-. eapply read_operand_error. eassumption.
Qed.

End FollowPointers.

Section Resolution.

Variables (s : state) (modes : list Z) (num_args : nat).
Hypothesis WF : well_formed s modes num_args.

Local Abbreviation args0 :=
  (np_slice (code s) (pointer s + 1) (pointer s + 1 + Z.of_nat num_args)).
Local Abbreviation modes' := (check_modes_length modes num_args).

Lemma slice_length : length args0 = num_args.
Proof.
  destruct WF as (H1 & H2 & H3 & H4). unfold np_slice, slice_bound.
  destruct (Z.ltb_spec (pointer s + 1) 0); [lia|].
  destruct (Z.ltb_spec (pointer s + 1 + Z.of_nat num_args) 0); [lia|].
  rewrite length_take, length_drop. unfold len in *. lia.
Qed.

Lemma slice_lookup (i : nat) :
  (i < num_args)%nat -> args0 !! i = operand s i.
Proof.
  intros Hi. destruct WF as (H1 & H2 & H3 & H4).
  unfold np_slice, slice_bound, operand.
  destruct (Z.ltb_spec (pointer s + 1) 0); [lia|].
  destruct (Z.ltb_spec (pointer s + 1 + Z.of_nat num_args) 0); [lia|].
  rewrite lookup_take_lt by lia. rewrite lookup_drop.
  f_equal. unfold len in *. lia.
Qed.

Lemma operand_is_Some (i : nat) :
  (i < num_args)%nat -> exists arg, operand s i = Some arg.
Proof.
  intros Hi. rewrite <- slice_lookup by assumption.
  apply lookup_lt_is_Some_2. rewrite slice_length. assumption.
Qed.

Lemma modes_length : length modes' = num_args.
Proof.
  destruct WF as (H1 & H2 & _). unfold check_modes_length.
  destruct (Nat.ltb_spec (length modes) num_args).
  - rewrite length_app, length_replicate. lia.
  - lia.
Qed.

Lemma modes_lookup (i : nat) :
  (i < num_args)%nat -> modes' !! i = Some (nth i modes 0).
Proof.
  intros Hi. destruct WF as (H1 & H2 & _). unfold check_modes_length. rewrite nth_lookup.
  destruct (Nat.ltb_spec (length modes) num_args) as [Hlt|Hge].
  - destruct (Nat.lt_ge_cases i (length modes)) as [Hin|Hout].
    + rewrite lookup_app_l by assumption.
      destruct (lookup_lt_is_Some_2 modes i Hin) as [m ->]. reflexivity.
    + rewrite lookup_app_r by assumption.
      rewrite lookup_replicate_2 by lia.
      rewrite (proj2 (lookup_ge_None modes i) Hout). reflexivity.
  - destruct (lookup_lt_is_Some_2 modes i ltac:(lia)) as [m ->]. reflexivity.
Qed.

(** Which operand is the store address. *)
Local Abbreviation target has_output i :=
  (has_output && (i =? num_args - 1)%nat).

Lemma follow_pointers_ok (has_output : bool) (args : list Z) :
  follow_pointers s modes num_args has_output = Ok args ->
  length args = num_args /\
  forall i, (i < num_args)%nat ->
    exists arg v,
      operand s i = Some arg /\
      resolve s (target has_output i) (nth i modes 0) arg = Ok v /\
      args !! i = Some v.
Proof.
  unfold follow_pointers. intros Hrun.
  pose proof slice_length as Hlen0. pose proof modes_length as Hlenm.
  pose proof WF as (Hn & _).
  destruct (follow_loop s modes' (seq 0 (length args0 - 1)) args0)
    as [args1|] eqn:Hloop; simpl in Hrun; [|discriminate].
  apply follow_loop_spec in Hloop as (Hlen1 & Hout & Hin);
    [|apply NoDup_seq].
  rewrite Hlen0 in *.
  assert (Hlast : args1 !! (num_args - 1)%nat = operand s (num_args - 1)).
  { rewrite Hout; [apply slice_lookup; lia|].
    rewrite elem_of_seq. lia. }
  destruct (operand_is_Some (num_args - 1) ltac:(lia)) as [last_arg Hop].
  unfold getlast in Hrun. rewrite !last_lookup in Hrun.
  rewrite Hlen1, Hlenm in Hrun.
  replace (Init.Nat.pred num_args) with (num_args - 1)%nat in Hrun by lia.
  rewrite Hlast, Hop, modes_lookup in Hrun by lia. simpl in Hrun.
  set (last_mode := nth (num_args - 1) modes 0) in *.
  (* the operands the loop has resolved *)
  assert (Hbefore : forall i, (i < num_args - 1)%nat ->
            exists arg v, operand s i = Some arg /\
              read_operand s (nth i modes 0) arg = Ok v /\
              args1 !! i = Some v).
  { intros i Hi. destruct (Hin i) as (arg & mode & v & H1 & H2 & H3 & H4).
    { rewrite elem_of_seq. lia. }
    rewrite slice_lookup in H1 by lia. rewrite modes_lookup in H2 by lia.
    injection H2 as <-. eauto. }
  (* the last operand *)
  assert (Hfinal : exists v,
            resolve s has_output last_mode last_arg = Ok v /\
            args = <[(num_args - 1)%nat := v]> args1).
  { unfold resolve, read_operand. destruct has_output.
    - destruct (last_mode =? 2); injection Hrun as <-; eexists; split;
        try reflexivity.
      symmetry. apply list_insert_id. congruence.
    - destruct (last_mode =? 0).
      + destruct (np_getitem (code s) last_arg); [|discriminate].
        injection Hrun as <-. eauto.
      + destruct (last_mode =? 2).
        * destruct (np_getitem (code s) _); [|discriminate].
          injection Hrun as <-. eauto.
        * injection Hrun as <-. eexists; split; [reflexivity|].
          symmetry. apply list_insert_id. congruence. }
  destruct Hfinal as (vl & Hvl & ->).
  split; [rewrite length_insert; assumption|].
  intros i Hi.
  destruct (Nat.eqb_spec i (num_args - 1)) as [->|Hne].
  - rewrite andb_true_r. exists last_arg, vl. repeat split; try assumption.
    apply list_lookup_insert_eq. lia.
  - rewrite andb_false_r. destruct (Hbefore i) as (arg & v & H1 & H2 & H3);
      [lia|].
    exists arg, v. repeat split; try assumption.
    rewrite list_lookup_insert_ne by congruence. assumption.
Qed.

Lemma follow_pointers_total (has_output : bool) :
  (forall i arg, (i < num_args)%nat -> operand s i = Some arg ->
     exists v, resolve s (target has_output i) (nth i modes 0) arg = Ok v) ->
  exists args, follow_pointers s modes num_args has_output = Ok args.
Proof.
  intros Hall. unfold follow_pointers.
  pose proof slice_length as Hlen0. pose proof modes_length as Hlenm.
  pose proof WF as (Hn & _).
  destruct (follow_loop_total s modes' (seq 0 (length args0 - 1)) args0)
    as [args1 Hloop].
  { apply NoDup_seq. }
  { intros i Hi. rewrite elem_of_seq in Hi. rewrite Hlen0 in Hi.
    destruct (operand_is_Some i ltac:(lia)) as [arg Hop].
    destruct (Hall i arg ltac:(lia) Hop) as [v Hv].
    unfold resolve in Hv.
    replace (i =? num_args - 1)%nat with false in Hv
      by (symmetry; apply Nat.eqb_neq; lia).
    rewrite andb_false_r in Hv.
    exists arg, (nth i modes 0), v.
    rewrite slice_lookup, modes_lookup by lia. auto. }
  rewrite Hloop. simpl.
  apply follow_loop_spec in Hloop as (Hlen1 & Hout & _); [|apply NoDup_seq].
  rewrite Hlen0 in *.
  destruct (operand_is_Some (num_args - 1) ltac:(lia)) as [last_arg Hop].
  unfold getlast. rewrite !last_lookup. rewrite Hlen1, Hlenm.
  replace (Init.Nat.pred num_args) with (num_args - 1)%nat by lia.
  rewrite Hout by (rewrite elem_of_seq; lia).
  rewrite slice_lookup, Hop, modes_lookup by lia. simpl.
  destruct (Hall (num_args - 1)%nat last_arg ltac:(lia) Hop) as [v Hv].
  unfold resolve in Hv.
  rewrite Nat.eqb_refl, andb_true_r in Hv. unfold read_operand in Hv.
  destruct has_output.
  - destruct (_ =? 2); eauto.
  - destruct (_ =? 0); [rewrite Hv; simpl; eauto|].
    destruct (_ =? 2); [rewrite Hv; simpl; eauto|eauto].
Qed.

Lemma follow_pointers_error (has_output : bool) (e : pyerror) :
  follow_pointers s modes num_args has_output = Err e ->
  e = IndexError_bounds.
Proof.
  unfold follow_pointers. intros Hrun.
  pose proof slice_length as Hlen0. pose proof modes_length as Hlenm.
  pose proof WF as (Hn & _).
  destruct (follow_loop s modes' (seq 0 (length args0 - 1)) args0)
    as [args1|e'] eqn:Hloop; simpl in Hrun.
  - apply follow_loop_spec in Hloop as (Hlen1 & Hout & _); [|apply NoDup_seq].
    rewrite Hlen0 in *.
    destruct (operand_is_Some (num_args - 1) ltac:(lia)) as [last_arg Hop].
    unfold getlast in Hrun. rewrite !last_lookup in Hrun.
    rewrite Hlen1, Hlenm in Hrun.
    replace (Init.Nat.pred num_args) with (num_args - 1)%nat in Hrun by lia.
    rewrite Hout in Hrun by (rewrite elem_of_seq; lia).
    rewrite slice_lookup, Hop, modes_lookup in Hrun by lia. simpl in Hrun.
    destruct has_output.
    + destruct (_ =? 2); discriminate.
    + destruct (_ =? 0).
      * destruct (np_getitem (code s) last_arg) eqn:E; [discriminate|].
        apply np_getitem_error in E. simpl in Hrun. congruence.
      * destruct (_ =? 2); [|discriminate].
        destruct (np_getitem (code s) _) eqn:E; [discriminate|].
        apply np_getitem_error in E. simpl in Hrun. congruence.
  - injection Hrun as <-. eapply follow_loop_error; [|eassumption].
    intros i Hi. rewrite elem_of_seq in Hi. lia.
Qed.

End Resolution.

Example follow_pointers_multiply :
  follow_pointers multiply_example [0; 1] 3 true = Ok [33; 3; 4].
Proof. reflexivity. Qed.

(** ** What an instruction can do *)

Lemma np_slice_length (a : list Z) (start : Z) (n : nat) :
  (length (np_slice a start (start + Z.of_nat n)) <= n)%nat.
Proof.
  unfold np_slice, slice_bound. rewrite length_take.
  destruct (Z.ltb_spec start 0), (Z.ltb_spec (start + Z.of_nat n) 0); lia.
Qed.

Lemma follow_loop_length (s : state) (modes : list Z) (idx : list nat) :
  forall args res : list Z,
    follow_loop s modes idx args = Ok res -> length res = length args.
Proof.
  induction idx as [|i idx IH]; intros args res Hrun.
  - injection Hrun as <-. reflexivity.
  - rewrite follow_loop_cons in Hrun.
    destruct (getitem IndexError_bounds args i); [|discriminate].
    destruct (getitem IndexError_list modes i); [|discriminate].
    simpl in Hrun. destruct (read_operand s a0 a); [|discriminate].
    simpl in Hrun. apply IH in Hrun. rewrite length_insert in Hrun.
    assumption.
Qed.

(** [follow_pointers] returns at least one and at most [num_args] values. *)
Lemma follow_pointers_length (s : state) (modes : list Z) (num_args : nat)
    (has_output : bool) (args : list Z) :
  follow_pointers s modes num_args has_output = Ok args ->
  (1 <= length args <= num_args)%nat.
Proof.
  unfold follow_pointers. intros Hrun.
  pose proof (np_slice_length (code s) (pointer s + 1) num_args) as Hle.
  destruct (follow_loop _ _ _ _) as [args1|] eqn:Hloop; [|discriminate].
  apply follow_loop_length in Hloop. simpl in Hrun.
  unfold getlast in Hrun.
  destruct (last args1) as [last_arg|] eqn:Hlast; [|discriminate].
  assert (1 <= length args1)%nat.
  { destruct args1; [discriminate|simpl; lia]. }
  simpl in Hrun.
  destruct (last (check_modes_length modes num_args)); [|discriminate].
  simpl in Hrun.
  assert (length args = length args1); [|lia].
  repeat match type of Hrun with
         | context [if ?c then _ else _] => destruct c
         | context [rbind ?r _] => destruct r; simpl in Hrun
         end;
    try discriminate; injection Hrun as <-;
    rewrite ?length_insert; reflexivity.
Qed.

Lemma opcode_dict_inv (opcode : Z) (opfunc : list Z -> state -> exec Z) :
  opcode_dict opcode = Some opfunc ->
  (opcode = 1 /\ opfunc = add) \/ (opcode = 2 /\ opfunc = multiply) \/
  (opcode = 3 /\ opfunc = input) \/ (opcode = 4 /\ opfunc = output) \/
  (opcode = 5 /\ opfunc = jump_if_true) \/
  (opcode = 6 /\ opfunc = jump_if_false) \/
  (opcode = 7 /\ opfunc = less_than) \/ (opcode = 8 /\ opfunc = equals) \/
  (opcode = 9 /\ opfunc = shift) \/ (opcode = 99 /\ opfunc = halt).
Proof.
  unfold opcode_dict. intros H.
  repeat match type of H with
         | context [match ?x with _ => _ end] => destruct x
         end;
    try discriminate; injection H as <-; tauto.
Qed.

(** Destructs every [match] of an unfolded opcode method. *)
Ltac exec_cases H :=
  repeat match type of H with
         | context [match ?x with _ => _ end] => destruct x eqn:?
         end;
  try discriminate.

(** An instruction that returns leaves [allow_pausing] alone and either
    leaves the output log and the pause flag alone, or is an output: it
    appends one value, pauses if pausing is allowed and does not halt. *)
Lemma opfunc_return (opcode : Z) (opfunc : list Z -> state -> exec Z)
    (modes : list Z) (s s' : state) (toadd : Z) :
  opcode_dict opcode = Some opfunc ->
  opfunc modes s = Return toadd s' ->
  allow_pausing s' = allow_pausing s /\
  ((output_log s' = output_log s /\ unpaused_flag s' = unpaused_flag s) \/
   (opcode = 4 /\ continue_flag s' = continue_flag s /\
    unpaused_flag s' = (if allow_pausing s then false else unpaused_flag s) /\
    exists v, output_log s' = output_log s ++ [v])).
Proof.
  intros Hd Hrun.
  destruct (opcode_dict_inv _ _ Hd)
    as [[-> ->]|[[-> ->]|[[-> ->]|[[-> ->]|[[-> ->]|[[-> ->]|[[-> ->]|
        [[-> ->]|[[-> ->]|[-> ->]]]]]]]]]];
    cbv delta [add multiply input output jump_if_true jump_if_false
               less_than equals shift halt] in Hrun;
    cbv beta zeta in Hrun; exec_cases Hrun; injection Hrun as <- <-;
    simpl; try (split; [reflexivity|]); try (left; split; reflexivity).
  all: right; simpl in Heqb; rewrite Heqb; repeat split; eauto.
Qed.

(** An instruction that raises has not written to memory, nor touched
    anything but the input queue. *)
Lemma opfunc_raise (opcode : Z) (opfunc : list Z -> state -> exec Z)
    (modes : list Z) (s s' : state) (e : pyerror) :
  opcode_dict opcode = Some opfunc ->
  opfunc modes s = Raise e s' ->
  code s' = code s /\ pointer s' = pointer s /\
  relative_base s' = relative_base s /\ output_log s' = output_log s /\
  unpaused_flag s' = unpaused_flag s /\ continue_flag s' = continue_flag s.
Proof.
  intros Hd Hrun.
  destruct (opcode_dict_inv _ _ Hd)
    as [[-> ->]|[[-> ->]|[[-> ->]|[[-> ->]|[[-> ->]|[[-> ->]|[[-> ->]|
        [[-> ->]|[[-> ->]|[-> ->]]]]]]]]]];
    cbv delta [add multiply input output jump_if_true jump_if_false
               less_than equals shift halt] in Hrun;
    cbv beta zeta in Hrun; exec_cases Hrun; injection Hrun as <- <-;
    simpl; repeat split; reflexivity.
Qed.

(** ** One turn of the loop *)

Lemma run_body_return (s s' : state) :
  run_body s = Return tt s' ->
  allow_pausing s' = allow_pausing s /\
  ((output_log s' = output_log s /\ unpaused_flag s' = unpaused_flag s) \/
   (continue_flag s' = continue_flag s /\
    unpaused_flag s' = (if allow_pausing s then false else unpaused_flag s) /\
    exists v, output_log s' = output_log s ++ [v])).
Proof.
  unfold run_body, operate. intros Hrun.
  destruct (np_getitem (code s) (pointer s)) as [full_opcode|];
    [|discriminate].
  destruct (parse_full_opcode full_opcode) as [[modes opcode]|];
    [|discriminate].
  destruct (opcode_dict opcode) as [opfunc|] eqn:Hd; [|discriminate].
  destruct (opfunc modes s) as [toadd s1|] eqn:Hop; [|discriminate].
  injection Hrun as <-.
  destruct (opfunc_return _ _ _ _ _ _ Hd Hop) as [Ha [Hb|(_ & Hb)]];
    simpl; auto.
Qed.

Lemma run_body_raise (s s' : state) (e : pyerror) :
  run_body s = Raise e s' -> code s' = code s.
Proof.
  unfold run_body, operate. intros Hrun.
  destruct (np_getitem (code s) (pointer s)) as [full_opcode|];
    [|injection Hrun as <- <-; reflexivity].
  destruct (parse_full_opcode full_opcode) as [[modes opcode]|];
    [|injection Hrun as <- <-; reflexivity].
  destruct (opcode_dict opcode) as [opfunc|] eqn:Hd;
    [|injection Hrun as <- <-; reflexivity].
  destruct (opfunc modes s) as [toadd s1|e1 s1] eqn:Hop; [discriminate|].
  injection Hrun as <- <-.
  apply (opfunc_raise _ _ _ _ _ _ Hd Hop).
Qed.

Lemma run_body_halt (s : state) :
  np_getitem (code s) (pointer s) = Ok 99 ->
  run_body s =
    Return tt (set_pointer (pointer s + 1) (set_continue_flag false s)).
Proof. unfold run_body. intros ->. reflexivity. Qed.

(** ** The loop *)

Lemma run_loop_stopped (fuel : nat) (s : state) :
  continue_flag s && unpaused_flag s = false -> run_loop fuel s = Finished s.
Proof. intros H. destruct fuel; simpl; rewrite H; reflexivity. Qed.

Lemma run_loop_step (fuel : nat) (s s1 : state) :
  continue_flag s && unpaused_flag s = true ->
  run_body s = Return tt s1 ->
  run_loop (S fuel) s = run_loop fuel s1.
Proof. intros Hc Hb. simpl. rewrite Hc, Hb. reflexivity. Qed.

Lemma run_loop_raise (fuel : nat) (s s1 : state) (e : pyerror) :
  continue_flag s && unpaused_flag s = true ->
  run_body s = Raise e s1 ->
  run_loop (S fuel) s = Raised e s1.
Proof. intros Hc Hb. simpl. rewrite Hc, Hb. reflexivity. Qed.

Lemma run_loop_finished (fuel : nat) :
  forall s s' : state,
    run_loop fuel s = Finished s' -> status_of s' <> Running.
Proof.
  induction fuel as [|fuel IH]; intros s s' Hrun; simpl in Hrun;
    destruct (continue_flag s && unpaused_flag s) eqn:Hc; try discriminate.
  - injection Hrun as <-. unfold status_of.
    destruct (continue_flag s), (unpaused_flag s); simpl in *; congruence.
  - destruct (run_body s) as [[] s1|]; [|discriminate]. eauto.
  - injection Hrun as <-. unfold status_of.
    destruct (continue_flag s), (unpaused_flag s); simpl in *; congruence.
Qed.

Lemma status_Halted (s : state) :
  status_of s = Halted <-> continue_flag s = false.
Proof.
  unfold status_of. destruct (continue_flag s), (unpaused_flag s); simpl;
    split; congruence.
Qed.

Lemma status_Paused (s : state) :
  status_of s = Paused <-> continue_flag s = true /\ unpaused_flag s = false.
Proof.
  unfold status_of. destruct (continue_flag s), (unpaused_flag s); simpl;
    intuition congruence.
Qed.

Lemma status_Running (s : state) :
  status_of s = Running <-> continue_flag s = true /\ unpaused_flag s = true.
Proof.
  unfold status_of. destruct (continue_flag s), (unpaused_flag s); simpl;
    intuition congruence.
Qed.

(** With pausing allowed, a call of the loop adds at most one value to the
    output log, and it has paused when it added one. *)
Lemma run_loop_one_output (fuel : nat) :
  forall s s' : state,
    allow_pausing s = true ->
    run_loop fuel s = Finished s' ->
    (output_log s' = output_log s /\ unpaused_flag s' = unpaused_flag s) \/
    (exists v, output_log s' = output_log s ++ [v] /\ status_of s' = Paused).
Proof.
  induction fuel as [|fuel IH]; intros s s' Hallow Hrun; simpl in Hrun;
    destruct (continue_flag s && unpaused_flag s) eqn:Hc; try discriminate;
    try (injection Hrun as <-; left; split; reflexivity).
  destruct (run_body s) as [[] s1|] eqn:Hbody; [|discriminate].
  apply andb_true_iff in Hc as [Hcont Hunp].
  destruct (run_body_return _ _ Hbody) as [Ha [[Ho Hu]|(Hk & Hu & v & Ho)]].
  - destruct (IH s1 s' ltac:(congruence) Hrun) as [[Ho' Hu']|(v & Ho' & Hp)].
    + left. split; congruence.
    + right. exists v. split; congruence.
  - rewrite Hallow in Hu. rewrite run_loop_stopped in Hrun
      by (rewrite Hu; apply andb_false_r).
    injection Hrun as <-. right. exists v. split; [assumption|].
    apply status_Paused. split; congruence.
Qed.

(** ** The memory stays [int64] *)

Lemma np_setitem_int64 (a c : list Z) (i v : Z) :
  Forall (fun z => in_int64 z = true) a -> in_int64 v = true ->
  np_setitem a i v = Ok c -> Forall (fun z => in_int64 z = true) c.
Proof.
  unfold np_setitem. intros Ha Hv Hset.
  destruct (np_index (len a) i); [|discriminate].
  injection Hset as <-. apply Forall_insert; assumption.
Qed.

Lemma np_setitem_obj_int64 (a c : list Z) (i : Z) (v : pyval) :
  Forall (fun z => in_int64 z = true) a ->
  np_setitem_obj a i v = Ok c -> Forall (fun z => in_int64 z = true) c.
Proof.
  unfold np_setitem_obj. intros Ha Hset.
  destruct (np_index (len a) i); [|discriminate].
  destruct v as [|z]; [discriminate|].
  destruct (in_int64 z) eqn:Hz; [|discriminate].
  injection Hset as <-. apply Forall_insert; assumption.
Qed.

Lemma opfunc_int64 (opcode : Z) (opfunc : list Z -> state -> exec Z)
    (modes : list Z) (s s' : state) (toadd : Z) :
  opcode_dict opcode = Some opfunc ->
  int64_state s ->
  opfunc modes s = Return toadd s' ->
  int64_state s'.
Proof.
  intros Hd [Hcode Hbase] Hrun.
  assert (H01 : forall b : bool, in_int64 (if b then 1 else 0) = true)
    by (intros []; reflexivity).
  destruct (opcode_dict_inv _ _ Hd)
    as [[-> ->]|[[-> ->]|[[-> ->]|[[-> ->]|[[-> ->]|[[-> ->]|[[-> ->]|
        [[-> ->]|[[-> ->]|[-> ->]]]]]]]]]];
    cbv delta [add multiply input output jump_if_true jump_if_false
               less_than equals shift halt] in Hrun;
    cbv beta zeta in Hrun; exec_cases Hrun; injection Hrun as <- <-;
    split; simpl; try assumption;
    eauto using np_setitem_int64, np_setitem_obj_int64, wrap64_in_int64.
Qed.

Lemma run_body_int64 (s s' : state) :
  int64_state s -> run_body s = Return tt s' -> int64_state s'.
Proof.
  unfold run_body, operate. intros Hs Hrun.
  destruct (np_getitem (code s) (pointer s)) as [full_opcode|];
    [|discriminate].
  destruct (parse_full_opcode full_opcode) as [[modes opcode]|];
    [|discriminate].
  destruct (opcode_dict opcode) as [opfunc|] eqn:Hd; [|discriminate].
  destruct (opfunc modes s) as [toadd s1|] eqn:Hop; [|discriminate].
  injection Hrun as <-.
  destruct (opfunc_int64 _ _ _ _ _ _ Hd Hs Hop). split; assumption.
Qed.

Lemma run_loop_int64 (fuel : nat) :
  forall s s' : state,
    int64_state s -> run_loop fuel s = Finished s' -> int64_state s'.
Proof.
  induction fuel as [|fuel IH]; intros s s' Hs Hrun; simpl in Hrun;
    destruct (continue_flag s && unpaused_flag s); try discriminate;
    try (injection Hrun as <-; assumption).
  destruct (run_body s) as [[] s1|] eqn:Hbody; [|discriminate].
  eauto using run_body_int64.
Qed.

(** ** Loading *)

Lemma slice_bound_prefix (a src : list Z) :
  Z.to_nat (slice_bound (len a) (len src)) = Nat.min (length src) (length a).
Proof.
  unfold slice_bound, len. destruct (Z.ltb_spec (Z.of_nat (length src)) 0); lia.
Qed.

Lemma np_setslice_prefix_fits (a src : list Z) :
  (length src <= length a)%nat ->
  np_setslice_prefix a (len src) src = Ok (src ++ drop (length src) a).
Proof.
  intros Hle. unfold np_setslice_prefix. rewrite slice_bound_prefix.
  rewrite Nat.min_l by assumption. rewrite Nat.eqb_refl. reflexivity.
Qed.

Lemma np_setslice_prefix_too_long (a src : list Z) :
  (length a < length src)%nat -> (2 <= length src)%nat ->
  np_setslice_prefix a (len src) src = Err ValueError_shape.
Proof.
  intros Hlt H2. unfold np_setslice_prefix. rewrite slice_bound_prefix.
  rewrite Nat.min_r by lia.
  destruct (Nat.eqb_spec (length src) (length a)); [lia|].
  destruct src as [|v [|w src]]; simpl in H2; try lia; reflexivity.
Qed.

(** A program that fits is copied to the front of a memory of zeros. *)
Lemma init_fits (program : list Z) (allow : bool) (code_size : Z) :
  len program <= code_size ->
  forallb in_int64 program = true ->
  __init__ program allow code_size =
    Ok (mkState (program ++ replicate (Z.to_nat code_size - length program) 0)
                0 0 [] [] allow true true).
Proof.
  intros Hle Hint. unfold __init__, np_zeros, len in *.
  destruct (Z.ltb_spec code_size 0); [lia|]. simpl.
  unfold initialize_code, np_array. rewrite Hint. simpl.
  rewrite np_setslice_prefix_fits by (rewrite length_replicate; lia).
  simpl. rewrite drop_replicate. reflexivity.
Qed.

Lemma np_setslice_prefix_length (a src c : list Z) (stop : Z) :
  np_setslice_prefix a stop src = Ok c -> length c = length a.
Proof.
  unfold np_setslice_prefix.
  set (d := Z.to_nat (slice_bound (len a) stop)).
  assert (Hd : (d <= length a)%nat).
  { subst d. unfold slice_bound, len. destruct (Z.ltb_spec stop 0); lia. }
  destruct (Nat.eqb_spec (length src) d) as [Heq|Hne].
  - intros [= <-]. rewrite length_app, length_drop. lia.
  - destruct src as [|v [|w src]]; try discriminate.
    intros [= <-]. rewrite length_app, length_replicate, length_drop. lia.
Qed.

(** A machine is constructed with an [int64] memory. *)
Lemma init_int64 (program : list Z) (allow : bool) (code_size : Z)
    (s : state) :
  __init__ program allow code_size = Ok s -> int64_state s.
Proof.
  unfold __init__, np_zeros. intros Hinit.
  destruct (code_size <? 0); [discriminate|]. simpl in Hinit.
  unfold initialize_code, np_array in Hinit.
  destruct (forallb in_int64 program) eqn:Hp; [|discriminate].
  simpl in Hinit. unfold np_setslice_prefix in Hinit.
  assert (Hprog : Forall (fun z => in_int64 z = true) program).
  { apply Forall_forall. intros z Hz.
    apply (proj1 (forallb_forall in_int64 program) Hp).
    apply list_elem_of_In. assumption. }
  assert (Hzeros : forall n k,
            Forall (fun z => in_int64 z = true) (drop k (replicate n 0))).
  { intros n k. apply Forall_drop. apply Forall_replicate. reflexivity. }
  destruct (_ =? _)%nat.
  - injection Hinit as <-. split; [|reflexivity]. simpl.
    apply Forall_app. auto.
  - destruct program as [|v [|w program]]; try discriminate.
    injection Hinit as <-. split; [|reflexivity]. simpl.
    apply Forall_app. split; [|auto].
    apply Forall_replicate. inversion Hprog. assumption.
Qed.

(** ** Run and resume *)

Example paused_example_reached :
  load_run [104; 1; 104; 2; 99] true 8 5 (scalar 0) = Finished paused_example.
Proof. reflexivity. Qed.

(** C2, as the specification has it, fails: on the paused machine
    [paused_example], [run] leaves the machine paused at the same
    instruction with the same output, while [resume] with the same input
    executes the next output instruction. *)
Lemma run_after_pause_is_not_resume :
  status_of paused_example = Paused /\
  run 5 (scalar 7) paused_example =
    Finished (mkState [104; 1; 104; 2; 99; 0; 0; 0] 2 0 [PyInt 7] [1]
                      true false true) /\
  resume 5 (scalar 7) paused_example =
    Finished (mkState [104; 1; 104; 2; 99; 0; 0; 0] 4 0 [PyInt 7] [1; 2]
                      true false true) /\
  run 5 (scalar 7) paused_example <> resume 5 (scalar 7) paused_example.
Proof. repeat split; try reflexivity. discriminate. Qed.

(** C2, amended.  On a paused machine [resume] replaces the input queue by
    the given values (a scalar becoming a one-element queue), sets the
    status back to Running and executes the loop, which returns only with a
    status that is Paused or Halted; [run] on a paused machine only
    replaces the input queue: it executes no instruction and the machine
    stays paused. *)
Theorem resume_reenters_loop (fuel : nat) (input_value : pyinput) (s : state) :
  status_of s = Paused ->
  run fuel input_value s = Finished (set_input_queue (input_list input_value) s) /\
  status_of (set_input_queue (input_list input_value) s) = Paused /\
  (forall v, input_list (InScalar v) = [v]) /\
  let s1 := set_input_queue (input_list input_value) (set_unpaused_flag true s) in
  input_queue s1 = input_list input_value /\
  status_of s1 = Running /\
  resume fuel input_value s = run_loop fuel s1 /\
  forall s', resume fuel input_value s = Finished s' ->
             status_of s' = Paused \/ status_of s' = Halted.
Proof.
  intros Hp. apply status_Paused in Hp as [Hc Hu].
  split; [|split; [|split; [|split; [|split; [|split]]]]].
  - unfold run. apply run_loop_stopped. simpl. rewrite Hu.
    apply andb_false_r.
  - apply status_Paused. simpl. auto.
  - reflexivity.
  - reflexivity.
  - apply status_Running. simpl. auto.
  - reflexivity.
  - intros s' Hrun. unfold resume, run in Hrun.
    apply run_loop_finished in Hrun.
    destruct (status_of s'); auto. contradiction.
Qed.

Lemma resume_reenters_loop_witness :
  status_of paused_example = Paused /\
  run 5 (scalar 7) paused_example =
    Finished (set_input_queue [PyInt 7] paused_example).
Proof.
  split; [reflexivity|].
  exact (proj1 (resume_reenters_loop 5 (scalar 7) paused_example eq_refl)).
Defined.

(** C10.  On a halted machine [run] and [resume] execute no instruction:
    they return with the memory, the pointer, the relative base, the status
    and the output log as they were, and the input queue replaced by the
    new input. *)
Theorem halted_machine_stays (fuel : nat) (input_value : pyinput) (s : state) :
  status_of s = Halted ->
  run fuel input_value s =
    Finished (set_input_queue (input_list input_value) s) /\
  exists s',
    resume fuel input_value s = Finished s' /\
    code s' = code s /\ pointer s' = pointer s /\
    relative_base s' = relative_base s /\ status_of s' = Halted /\
    output_log s' = output_log s /\
    input_queue s' = input_list input_value /\
    allow_pausing s' = allow_pausing s.
Proof.
  intros Hh. apply status_Halted in Hh. split.
  - unfold run. apply run_loop_stopped. simpl. rewrite Hh. reflexivity.
  - eexists. split.
    + unfold resume, run. apply run_loop_stopped. simpl. rewrite Hh.
      reflexivity.
    + simpl. repeat split. apply status_Halted. simpl. assumption.
Qed.

Lemma halted_machine_stays_witness :
  status_of (mkState [99; 0] 1 0 [] [] false true false) = Halted /\
  run 3 (scalar 7) (mkState [99; 0] 1 0 [] [] false true false) =
    Finished (mkState [99; 0] 1 0 [PyInt 7] [] false true false).
Proof.
  split; [reflexivity|].
  exact (proj1 (halted_machine_stays 3 (scalar 7)
                  (mkState [99; 0] 1 0 [] [] false true false) eq_refl)).
Defined.

(** C9.  The program [99], loaded into a memory of at least one cell, halts
    with an empty output log whatever input [run] is given. *)
Theorem halt_program_halts (allow : bool) (code_size : Z)
    (input_value : pyinput) (fuel : nat) :
  1 <= code_size -> (1 <= fuel)%nat ->
  exists s0 s',
    __init__ [99] allow code_size = Ok s0 /\
    run fuel input_value s0 = Finished s' /\
    status_of s' = Halted /\ output_log s' = [].
Proof.
  intros Hsize Hfuel.
  pose proof (init_fits [99] allow code_size ltac:(unfold len; simpl; lia)
                eq_refl) as Hinit.
  eexists. eexists. split; [exact Hinit|].
  destruct fuel as [|fuel]; [lia|].
  unfold run. erewrite run_loop_step; [|reflexivity|].
  2: { apply run_body_halt. unfold np_getitem. simpl code.
       rewrite np_index_nonneg by (unfold len; simpl; lia). reflexivity. }
  rewrite run_loop_stopped by reflexivity.
  split; [reflexivity|]. split; reflexivity.
Qed.

Lemma halt_program_halts_witness :
  1 <= 4 /\ (1 <= 2)%nat /\
  exists s0 s',
    __init__ [99] false 4 = Ok s0 /\
    run 2 (InList []) s0 = Finished s' /\
    status_of s' = Halted /\ output_log s' = [].
Proof.
  split; [lia|]. split; [lia|].
  apply (halt_program_halts false 4 (InList []) 2); lia.
Defined.

(** C6.  Jump-if-true sets the pointer to the resolved target when its
    first resolved operand is not zero, and the loop adds nothing to it;
    otherwise the pointer advances by 3.  Jump-if-false does the same with
    the test reversed.  Nothing else in the machine changes. *)
Theorem jump_pointer_update (s : state) (full_opcode : Z) (modes : list Z)
    (arg1 arg2 : Z) :
  np_getitem (code s) (pointer s) = Ok full_opcode ->
  follow_pointers s modes 2 false = Ok [arg1; arg2] ->
  (parse_full_opcode full_opcode = Ok (modes, 5) ->
   run_body s =
     Return tt (set_pointer (if arg1 =? 0 then pointer s + 3 else arg2) s)) /\
  (parse_full_opcode full_opcode = Ok (modes, 6) ->
   run_body s =
     Return tt (set_pointer (if arg1 =? 0 then arg2 else pointer s + 3) s)).
Proof.
  intros Hfetch Hargs. unfold run_body, operate. rewrite Hfetch.
  split; intros ->; simpl; unfold jump_if_true, jump_if_false;
    rewrite Hargs; destruct (arg1 =? 0); simpl; unfold set_pointer; simpl;
    rewrite ?Z.add_0_r; reflexivity.
Qed.

Lemma jump_pointer_update_witness :
  np_getitem (code jump_example) (pointer jump_example) = Ok 1105 /\
  follow_pointers jump_example [1; 1] 2 false = Ok [1; 4] /\
  parse_full_opcode 1105 = Ok ([1; 1], 5) /\
  run_body jump_example = Return tt (set_pointer 4 jump_example).
Proof.
  split; [reflexivity|]. split; [reflexivity|]. split; [reflexivity|].
  exact (proj1 (jump_pointer_update jump_example 1105 [1; 1] 1 4
                  eq_refl eq_refl) eq_refl).
Defined.

(** C4.  An input instruction that finds the input queue empty raises:
    with its operand resolved, the exception is the [IndexError] of
    [pop] on an empty list and the machine is left as it was; nothing is
    stored.  Whether pausing is allowed plays no part. *)
Theorem input_exhausted_raises (s : state) (full_opcode : Z)
    (modes : list Z) :
  np_getitem (code s) (pointer s) = Ok full_opcode ->
  parse_full_opcode full_opcode = Ok (modes, 3) ->
  input_queue s = [] ->
  (forall args, follow_pointers s modes 1 true = Ok args ->
                run_body s = Raise IndexError_pop s) /\
  exists e,
    run_body s = Raise e s /\
    forall fuel, status_of s = Running -> run_loop (S fuel) s = Raised e s.
Proof.
  intros Hfetch Hparse Hq.
  assert (Hbody : forall e s1, input modes s = Raise e s1 ->
                                run_body s = Raise e s1).
  { intros e s1 Hin. unfold run_body, operate. rewrite Hfetch, Hparse.
    simpl. rewrite Hin. reflexivity. }
  assert (Hok : forall args, follow_pointers s modes 1 true = Ok args ->
                             input modes s = Raise IndexError_pop s).
  { intros args Hargs. unfold input. rewrite Hargs.
    apply follow_pointers_length in Hargs.
    destruct args as [|arg1 args]; [simpl in Hargs; lia|].
    simpl. rewrite Hq. reflexivity. }
  split.
  - intros args Hargs. eauto.
  - assert (Hex : exists e, input modes s = Raise e s).
    { destruct (follow_pointers s modes 1 true) as [args|e] eqn:Hargs.
      - eauto.
      - exists e. unfold input. rewrite Hargs. reflexivity. }
    destruct Hex as [e He]. exists e. split; [auto|].
    intros fuel Hr. apply status_Running in Hr as [Hc Hu].
    apply run_loop_raise; [rewrite Hc, Hu; reflexivity|auto].
Qed.

Lemma input_exhausted_raises_witness :
  np_getitem (code input_example) (pointer input_example) = Ok 3 /\
  parse_full_opcode 3 = Ok ([], 3) /\
  input_queue input_example = [] /\
  run_body input_example = Raise IndexError_pop input_example.
Proof.
  split; [reflexivity|]. split; [reflexivity|]. split; [reflexivity|].
  exact (proj1 (input_exhausted_raises input_example 3 [] eq_refl eq_refl
                  eq_refl) [1] eq_refl).
Defined.

Example input_example_reached :
  load_run [3; 0; 3; 1; 99] false 6 5 (scalar 1)
  = Raised IndexError_pop input_example.
Proof. reflexivity. Qed.

(** C5.  With pausing allowed, an output instruction appends one value and
    pauses the machine; hence a call of [run] on a running machine, or of
    [resume], appends at most one value to the output log: it returns
    either halted with the log as it was, or paused with exactly one value
    appended.  The program of three output instructions takes three calls
    to produce its three values, one per call, in order. *)
Theorem pause_on_output_one_value_per_cycle :
  (forall (s s' : state) (modes : list Z) (toadd : Z),
     allow_pausing s = true ->
     output modes s = Return toadd s' ->
     unpaused_flag s' = false /\
     exists v, output_log s' = output_log s ++ [v]) /\
  (forall (fuel : nat) (input_value : pyinput) (s s' : state),
     allow_pausing s = true ->
     (status_of s = Running /\ run fuel input_value s = Finished s') \/
     resume fuel input_value s = Finished s' ->
     (output_log s' = output_log s /\ status_of s' = Halted) \/
     (exists v, output_log s' = output_log s ++ [v] /\
                status_of s' = Paused)) /\
  (__init__ three_outputs true 10 = Ok (three_outputs_at 0 [] [] true true) /\
   run 100 (scalar 0) (three_outputs_at 0 [] [] true true) =
     Finished (three_outputs_at 2 [PyInt 0] [11] false true) /\
   resume 100 (scalar 0) (three_outputs_at 2 [PyInt 0] [11] false true) =
     Finished (three_outputs_at 4 [PyInt 0] [11; 22] false true) /\
   resume 100 (scalar 0) (three_outputs_at 4 [PyInt 0] [11; 22] false true) =
     Finished (three_outputs_at 6 [PyInt 0] [11; 22; 33] false true) /\
   resume 100 (scalar 0) (three_outputs_at 6 [PyInt 0] [11; 22; 33] false true) =
     Finished (three_outputs_at 7 [PyInt 0] [11; 22; 33] true false)).
Proof.
  split; [|split].
  - intros s s' modes toadd Hallow Hrun. unfold output in Hrun.
    destruct (follow_pointers s modes 1 false); [|discriminate].
    destruct (getitem IndexError_bounds a 0); [|discriminate].
    simpl in Hrun. rewrite Hallow in Hrun. injection Hrun as <- <-.
    simpl. eauto.
  - intros fuel input_value s s' Hallow Hrun.
    assert (Hloop : exists s1, run_loop fuel s1 = Finished s' /\
              allow_pausing s1 = true /\ output_log s1 = output_log s /\
              (unpaused_flag s1 = true \/
               continue_flag s1 = false)).
    { destruct Hrun as [[Hr Hrun]|Hrun].
      - apply status_Running in Hr as [Hc Hu].
        eexists. split; [exact Hrun|]. simpl. auto.
      - eexists. split; [exact Hrun|]. simpl. auto. }
    destruct Hloop as (s1 & Hloop & Ha1 & Ho1 & Hflag).
    pose proof (run_loop_finished _ _ _ Hloop) as Hnr.
    destruct (run_loop_one_output _ _ _ Ha1 Hloop)
      as [[Ho Hu]|(v & Ho & Hp)].
    + left. split; [congruence|]. apply status_Halted.
      destruct Hflag as [Hu1|Hc1].
      * destruct (continue_flag s') eqn:Hc; [|reflexivity].
        exfalso. apply Hnr. apply status_Running. split; congruence.
      * destruct fuel; simpl in Hloop; rewrite Hc1 in Hloop;
          simpl in Hloop; injection Hloop as <-; assumption.
    + right. exists v. split; congruence.
  - repeat split; vm_compute; reflexivity.
Qed.

Lemma pause_on_output_one_value_per_cycle_witness :
  allow_pausing paused_example = true /\
  ((output_log (mkState [104; 1; 104; 2; 99; 0; 0; 0] 4 0 [PyInt 7] [1; 2]
                        true false true)
    = output_log paused_example /\
    status_of (mkState [104; 1; 104; 2; 99; 0; 0; 0] 4 0 [PyInt 7] [1; 2]
                       true false true) = Halted) \/
   (exists v,
      output_log (mkState [104; 1; 104; 2; 99; 0; 0; 0] 4 0 [PyInt 7] [1; 2]
                          true false true)
      = output_log paused_example ++ [v] /\
      status_of (mkState [104; 1; 104; 2; 99; 0; 0; 0] 4 0 [PyInt 7] [1; 2]
                         true false true) = Paused)).
Proof.
  split; [reflexivity|].
  apply (proj1 (proj2 pause_on_output_one_value_per_cycle) 5%nat (scalar 7)
           paused_example _ eq_refl).
  right. reflexivity.
Defined.

(** ** Modes of a store address *)

Lemma follow_loop_modes_ext (s : state) (modes1 modes2 : list Z)
    (idx : list nat) :
  forall args : list Z,
    (forall i, i ∈ idx -> modes1 !! i = modes2 !! i) ->
    follow_loop s modes1 idx args = follow_loop s modes2 idx args.
Proof.
  induction idx as [|i idx IH]; intros args Hext; [reflexivity|].
  rewrite !follow_loop_cons. unfold getitem.
  rewrite (Hext i) by left.
  destruct (args !! i) as [arg|]; [|reflexivity]. simpl.
  destruct (modes2 !! i) as [mode|]; [|reflexivity]. simpl.
  destruct (read_operand s mode arg); [|reflexivity]. simpl.
  apply IH. intros j Hj. apply Hext. right. assumption.
Qed.

(** For a store address only "mode 2 or not" matters. *)
Lemma follow_pointers_target_mode (s : state) (ms : list Z) (num_args : nat)
    (m1 m2 : Z) :
  S (length ms) = num_args ->
  (m1 =? 2) = (m2 =? 2) ->
  follow_pointers s (ms ++ [m1]) num_args true =
  follow_pointers s (ms ++ [m2]) num_args true.
Proof.
  intros Hlen Hm. unfold follow_pointers, check_modes_length.
  rewrite !length_app. simpl.
  replace (length ms + 1 <? num_args)%nat with false
    by (symmetry; apply Nat.ltb_ge; lia).
  pose proof (np_slice_length (code s) (pointer s + 1) num_args) as Hle.
  rewrite (follow_loop_modes_ext s (ms ++ [m1]) (ms ++ [m2])).
  - destruct (follow_loop _ _ _ _); [|reflexivity]. simpl.
    destruct (getlast IndexError_bounds a); [|reflexivity]. simpl.
    unfold getlast. rewrite !last_snoc. simpl. rewrite Hm. reflexivity.
  - intros i Hi. rewrite elem_of_seq in Hi.
    rewrite !lookup_app_l by lia. reflexivity.
Qed.

(** C3, as the specification has it, fails: the add instruction
    [11101,4,5,0], whose third mode digit is 1, is executed; it stores 9 at
    address 0.  And the mode that counts is the last digit of the opcode:
    [211101,4,5,0] has the same third digit, but with a relative base of 6
    it stores 9 at address 6. *)
Lemma immediate_write_target_accepted :
  parse_full_opcode 11101 = Ok ([1; 1; 1], 1) /\
  run_body immediate_target_example =
    Return tt (mkState [9; 4; 5; 0; 99] 4 0 [] [] false true true) /\
  parse_full_opcode 211101 = Ok ([1; 1; 1; 2], 1) /\
  run_body extra_digit_add_example =
    Return tt (mkState [211101; 4; 5; 0; 99; 0; 9; 0] 4 6 [] []
                 false true true).
Proof. repeat split; reflexivity. Qed.

(** ** Addresses out of range *)

(** C7, as the specification has it, fails: the add instruction
    [1101,4,5,-1] in a memory of six cells resolves its store address to
    -1, which is not in [0, 6), and stores 9 in the last cell.  And an
    operand is an address only under the mode the code applies to it: in
    [10004,1000] the last mode digit is 1, and 1000 is put out as a value
    from a memory of three cells, although the operand's own digit is 0. *)
Lemma negative_address_accepted :
  follow_pointers negative_target_example [1; 1] 3 true = Ok [4; 5; -1] /\
  ~ (0 <= -1 < len (code negative_target_example)) /\
  run_body negative_target_example =
    Return tt (mkState [1101; 4; 5; -1; 99; 9] 4 0 [] [] false true true) /\
  parse_full_opcode 10004 = Ok ([0; 0; 1], 4) /\
  run_body extra_digit_output_example =
    Return tt (mkState [10004; 1000; 99] 2 0 [] [1000] false true true).
Proof.
  split; [reflexivity|]. split; [lia|]. repeat split; reflexivity.
Qed.

(** ** Construction *)

(** C8, as the specification has it, fails: a program of one value is
    longer than a capacity of 0, yet the construction succeeds; numpy
    broadcasts the single value over the empty slice and the memory stays
    empty. *)
Lemma one_value_program_loads_in_no_memory :
  len [99] > 0 /\
  __init__ [99] false 0 = Ok (mkState [] 0 0 [] [] false true true).
Proof. split; reflexivity. Qed.

(** C8, amended.  The construction raises whenever the program is longer
    than the capacity, unless the program has one value and the capacity is
    0 (the exception is numpy's [ValueError] for shapes that do not match,
    when the capacity is not negative and the values are [int64]); a
    program of one value with capacity 0 gives an empty memory.  A program
    of [int64] values that is not longer than the capacity is copied from
    address 0 on and the remainder is zero.  Whenever the construction
    succeeds the pointer is 0, the relative base is 0, the status is
    Running, the output log is empty and the memory has the capacity asked
    for. *)
Theorem load_program (program : list Z) (allow : bool) (code_size : Z) :
  (len program > code_size ->
   ~ (length program = 1%nat /\ code_size = 0) ->
   exists e,
     __init__ program allow code_size = Err e /\
     (0 <= code_size -> forallb in_int64 program = true ->
      e = ValueError_shape)) /\
  (forall v, in_int64 v = true ->
     __init__ [v] allow 0 = Ok (mkState [] 0 0 [] [] allow true true)) /\
  (len program <= code_size -> forallb in_int64 program = true ->
   __init__ program allow code_size =
     Ok (mkState
           (program ++ replicate (Z.to_nat code_size - length program) 0)
           0 0 [] [] allow true true)) /\
  (forall s, __init__ program allow code_size = Ok s ->
     pointer s = 0 /\ relative_base s = 0 /\ status_of s = Running /\
     output_log s = [] /\ len (code s) = code_size /\
     allow_pausing s = allow).
Proof.
  split; [|split; [|split]].
  - intros Hlong Hnot. unfold __init__, np_zeros.
    destruct (Z.ltb_spec code_size 0) as [Hneg|Hpos].
    { eexists. split; [reflexivity|]. lia. }
    simpl. unfold initialize_code, np_array.
    destruct (forallb in_int64 program).
    + simpl. rewrite np_setslice_prefix_too_long.
      * eexists. split; [reflexivity|]. reflexivity.
      * rewrite length_replicate. unfold len in Hlong. lia.
      * unfold len in Hlong. destruct program as [|v [|w program]];
          simpl in *; lia.
    + eexists. split; [reflexivity|]. discriminate.
  - intros v Hv. unfold __init__, initialize_code, np_array. simpl.
    rewrite Hv. reflexivity.
  - apply init_fits.
  - intros s Hinit. unfold __init__, np_zeros in Hinit.
    destruct (Z.ltb_spec code_size 0) as [Hneg|Hpos]; [discriminate|].
    simpl in Hinit. unfold initialize_code in Hinit.
    destruct (np_array program) as [init_code|]; [|discriminate].
    simpl in Hinit.
    destruct (np_setslice_prefix _ _ _) as [c|] eqn:Hc; [|discriminate].
    injection Hinit as <-. simpl. repeat split.
    apply np_setslice_prefix_length in Hc. unfold len. rewrite Hc.
    rewrite length_replicate. lia.
Qed.

Lemma load_program_witness :
  len [1; 0; 0; 0; 99] <= 8 /\
  forallb in_int64 [1; 0; 0; 0; 99] = true /\
  __init__ [1; 0; 0; 0; 99] false 8 =
    Ok (mkState [1; 0; 0; 0; 99; 0; 0; 0] 0 0 [] [] false true true).
Proof.
  assert (Hle : len [1; 0; 0; 0; 99] <= 8) by (unfold len; simpl; lia).
  split; [exact Hle|]. split; [reflexivity|].
  exact (proj1 (proj2 (proj2 (load_program [1; 0; 0; 0; 99] false 8)))
           Hle eq_refl).
Defined.

Example load_too_long :
  __init__ [1; 0; 0; 0; 99] false 3 = Err ValueError_shape.
Proof. reflexivity. Qed.

(** ** The programs of the specification *)

Example add_in_place :
  code_of (load_run [1; 0; 0; 0; 99] false 8 10 (scalar 1))
  = [2; 0; 0; 0; 99; 0; 0; 0].
Proof. reflexivity. Qed.

Example add_immediate :
  code_of (load_run [1101; 4; 5; 6; 99] false 8 10 (scalar 1))
  = [1101; 4; 5; 6; 99; 0; 9; 0].
Proof. reflexivity. Qed.

Example relative_store :
  code_of (load_run [109; 5; 21101; 4; 5; 2; 99] false 10 10 (scalar 1))
  = [109; 5; 21101; 4; 5; 2; 99; 9; 0; 0].
Proof. reflexivity. Qed.

Example add64_small (a b : Z) :
  in_int64 (a + b) = true -> add64 a b = a + b.
Proof. apply wrap64_small. Qed.

(** * Further properties of the code *)

(** ** The decimal text of a cell *)

Lemma string_of_uint_digits (d : Decimal.uint) :
  list_ascii_of_string (NilEmpty.string_of_uint d) =
  map digit_ascii (DecimalFacts.to_list d).
Proof. induction d; simpl; congruence. Qed.

Lemma of_lu_digits (d : Decimal.uint) :
  Z.of_N (DecimalPos.Unsigned.of_lu d) =
  le_value (map digit_val (DecimalFacts.to_list d)).
Proof. induction d; simpl le_value; simpl DecimalPos.Unsigned.of_lu; lia. Qed.

Lemma digit_val_range (d : DecimalFacts.digits) : 0 <= digit_val d <= 9.
Proof. destruct d; simpl; lia. Qed.

Lemma digit_val_zero (d : DecimalFacts.digits) :
  digit_val d = 0 -> d = DecimalFacts.d0.
Proof. destruct d; simpl; intros; try reflexivity; lia. Qed.

(** A normalised numeral does not start with the digit 0, unless it is
    the numeral 0. *)
Lemma lunorm_fixed_head (l : list DecimalFacts.digits) :
  DecimalFacts.lunorm l = l ->
  l = [DecimalFacts.d0] \/ head l <> Some DecimalFacts.d0.
Proof.
  destruct l as [|d l]; [right; discriminate|].
  destruct d; try (right; simpl; congruence).
  unfold DecimalFacts.lunorm. simpl DecimalFacts.lnzhead.
  pose proof (DecimalFacts.length_lnzhead l) as Hlen.
  destruct (DecimalFacts.lnzhead l) as [|x l'] eqn:Hl.
  - intros [= <-]. left. reflexivity.
  - intros E. rewrite E in Hlen. simpl in Hlen. lia.
Qed.

(** The digits of a positive number, least significant first: they write
    the number, and the most significant one is not 0. *)
Lemma pos_digits (p : positive) :
  exists le : list DecimalFacts.digits,
    DecimalFacts.to_list (Pos.to_uint p) = rev le /\
    le_value (map digit_val le) = Z.pos p /\
    last le <> Some DecimalFacts.d0.
Proof.
  exists (rev (DecimalFacts.to_list (Pos.to_uint p))).
  split; [symmetry; apply rev_involutive|]. split.
  - rewrite <- DecimalFacts.rev_spec, <- of_lu_digits,
      <- DecimalPos.Unsigned.of_uint_alt, DecimalPos.Unsigned.of_to.
    reflexivity.
  - pose proof (DecimalPos.Unsigned.to_of (Pos.to_uint p)) as Hnorm.
    rewrite DecimalPos.Unsigned.of_to in Hnorm. simpl in Hnorm.
    apply (f_equal DecimalFacts.to_list) in Hnorm.
    rewrite DecimalFacts.unorm_spec in Hnorm. symmetry in Hnorm.
    apply lunorm_fixed_head in Hnorm as [Hzero|Hhead].
    + exfalso. apply (DecimalPos.Unsigned.to_uint_nonzero p).
      apply DecimalFacts.to_list_inj. exact Hzero.
    + destruct (DecimalFacts.to_list (Pos.to_uint p)) as [|d l];
        [discriminate|].
      simpl in *. rewrite last_snoc. exact Hhead.
Qed.

Lemma str_pos (p : positive) :
  str (Z.pos p) =
  map digit_ascii (DecimalFacts.to_list (Pos.to_uint p)).
Proof.
  unfold str. simpl. unfold NilZero.string_of_uint.
  pose proof (DecimalPos.Unsigned.to_uint_nonnil p) as Hnn.
  destruct (Pos.to_uint p) eqn:E; try contradiction;
    rewrite <- E; apply string_of_uint_digits.
Qed.

Lemma str_neg (p : positive) :
  str (Z.neg p) =
  "-"%char :: map digit_ascii (DecimalFacts.to_list (Pos.to_uint p)).
Proof.
  unfold str. simpl. f_equal. unfold NilZero.string_of_uint.
  pose proof (DecimalPos.Unsigned.to_uint_nonnil p) as Hnn.
  destruct (Pos.to_uint p) eqn:E; try contradiction;
    rewrite <- E; apply string_of_uint_digits.
Qed.

Lemma drop_last2_rev {A : Type} (l : list A) :
  drop_last2 (rev l) = rev (drop 2 l).
Proof.
  unfold drop_last2. rewrite firstn_rev, length_rev.
  destruct l as [|a [|b l]]; try reflexivity.
  simpl length. replace (S (S (length l)) - (S (S (length l)) - 2))%nat
    with 2%nat by lia.
  reflexivity.
Qed.

Lemma last2_rev {A : Type} (l : list A) :
  last2 (rev l) = rev (take 2 l).
Proof.
  unfold last2. rewrite skipn_rev, length_rev.
  destruct l as [|a [|b l]]; try reflexivity.
  simpl length. replace (S (S (length l)) - (S (S (length l)) - 2))%nat
    with 2%nat by lia.
  reflexivity.
Qed.

Lemma int_of_char_digit (d : DecimalFacts.digits) :
  int_of_char (digit_ascii d) = Ok (digit_val d).
Proof. destruct d; reflexivity. Qed.

Lemma int_of_str_two_digits (d1 d0 : DecimalFacts.digits) :
  int_of_str [digit_ascii d1; digit_ascii d0] =
  Ok (digit_val d0 + 10 * digit_val d1).
Proof. destruct d1, d0; reflexivity. Qed.

Lemma int_of_str_minus_digit (d : DecimalFacts.digits) :
  int_of_str ["-"%char; digit_ascii d] = Ok (- digit_val d).
Proof. destruct d; reflexivity. Qed.

Lemma comprehension_digits (l : list DecimalFacts.digits) :
  comprehension int_of_char (map digit_ascii l) = Ok (map digit_val l).
Proof.
  induction l as [|d l IH]; [reflexivity|].
  simpl. rewrite int_of_char_digit. simpl. rewrite IH. reflexivity.
Qed.

Lemma comprehension_digits_minus (l : list DecimalFacts.digits) :
  comprehension int_of_char (map digit_ascii l ++ ["-"%char]) =
  Err ValueError_literal.
Proof.
  induction l as [|d l IH]; [reflexivity|].
  simpl. rewrite int_of_char_digit. simpl. rewrite IH. reflexivity.
Qed.

(** *** Digits and division *)

Lemma le_value_bound (ds : list Z) :
  Forall (fun d => 0 <= d <= 9) ds -> 0 <= le_value ds < 10 ^ len ds.
Proof.
  induction 1 as [|d ds Hd _ IH]; [unfold len; simpl; lia|].
  unfold len in *. simpl length. rewrite Nat2Z.inj_succ, Z.pow_succ_r by lia.
  simpl le_value. lia.
Qed.

Lemma le_value_lower (ds : list Z) :
  Forall (fun d => 0 <= d <= 9) ds ->
  ds <> [] -> last ds <> Some 0 ->
  10 ^ (len ds - 1) <= le_value ds.
Proof.
  induction 1 as [|d ds Hd Hds IH]; [congruence|]. intros _ Hlast.
  unfold len in *. simpl length. rewrite Nat2Z.inj_succ.
  replace (Z.succ (Z.of_nat (length ds)) - 1) with (Z.of_nat (length ds))
    by lia.
  simpl le_value. destruct ds as [|d' ds'].
  - simpl in *. assert (d <> 0) by congruence. lia.
  - specialize (IH ltac:(discriminate) Hlast).
    simpl length in *. rewrite Nat2Z.inj_succ in *.
    replace (Z.succ (Z.of_nat (length ds')) - 1)
      with (Z.of_nat (length ds')) in IH by lia.
    rewrite Z.pow_succ_r by lia. lia.
Qed.

Lemma le_value_drop (ds : list Z) (k : nat) :
  Forall (fun d => 0 <= d <= 9) ds ->
  le_value (drop k ds) = le_value ds / 10 ^ Z.of_nat k.
Proof.
  revert ds. induction k as [|k IH]; intros ds Hds.
  - rewrite drop_0. simpl. rewrite Z.div_1_r. reflexivity.
  - destruct ds as [|d ds]; [reflexivity|].
    apply Forall_cons in Hds as [Hd Hds].
    simpl drop. rewrite IH by assumption.
    rewrite Nat2Z.inj_succ, Z.pow_succ_r by lia.
    rewrite <- Z.div_div by lia. f_equal.
    simpl le_value. apply Z.div_unique with (r := d); lia.
Qed.

Lemma le_value_head (ds : list Z) :
  Forall (fun d => 0 <= d <= 9) ds -> nth 0 ds 0 = le_value ds mod 10.
Proof.
  destruct 1 as [|d ds Hd _]; [reflexivity|].
  simpl. apply Z.mod_unique with (q := le_value ds); lia.
Qed.

Lemma le_value_nth (ds : list Z) (i : nat) :
  Forall (fun d => 0 <= d <= 9) ds ->
  nth i ds 0 = (le_value ds / 10 ^ Z.of_nat i) mod 10.
Proof.
  intros Hds. rewrite <- le_value_drop by assumption.
  rewrite <- le_value_head by (apply Forall_drop; assumption).
  rewrite !nth_lookup, lookup_drop. f_equal. f_equal. lia.
Qed.

Lemma le_value_take2 (ds : list Z) :
  Forall (fun d => 0 <= d <= 9) ds ->
  le_value (take 2 ds) = le_value ds mod 100.
Proof.
  intros Hds. destruct ds as [|d0 [|d1 ds]].
  - reflexivity.
  - apply Forall_cons in Hds as [H0 _]. simpl.
    apply Z.mod_unique with (q := 0); lia.
  - apply Forall_cons in Hds as [H0 Hds].
    apply Forall_cons in Hds as [H1 _]. simpl.
    apply Z.mod_unique with (q := le_value ds); lia.
Qed.

Lemma digits_range (le : list DecimalFacts.digits) :
  Forall (fun d => 0 <= d <= 9) (map digit_val le).
Proof. apply Forall_map, Forall_forall. intros d _. apply digit_val_range. Qed.

(** *** What [parse_full_opcode] returns *)

Lemma parse_pos (p : positive) :
  exists le : list DecimalFacts.digits,
    le_value (map digit_val le) = Z.pos p /\
    last le <> Some DecimalFacts.d0 /\
    parse_full_opcode (Z.pos p) =
      Ok (map digit_val (drop 2 le), Z.pos p mod 100).
Proof.
  destruct (pos_digits p) as (le & Hstr & Hval & Hlast).
  exists le. split; [assumption|]. split; [assumption|].
  unfold parse_full_opcode.
  rewrite str_pos, Hstr, map_rev, drop_last2_rev, rev_involutive, last2_rev.
  rewrite skipn_map, comprehension_digits. simpl rbind.
  assert (Hop : int_of_str (rev (take 2 (map digit_ascii le))) =
                Ok (le_value (take 2 (map digit_val le)))).
  { destruct le as [|d0 [|d1 le]].
    - simpl in Hval. lia.
    - simpl. rewrite Z.add_0_r. destruct d0; reflexivity.
    - simpl. rewrite int_of_str_two_digits. f_equal. lia. }
  rewrite Hop. simpl. rewrite le_value_take2 by apply digits_range.
  rewrite Hval. reflexivity.
Qed.

Lemma parse_zero : parse_full_opcode 0 = Ok ([], 0).
Proof. reflexivity. Qed.

Lemma last_digit_val (le : list DecimalFacts.digits) :
  last (map digit_val le) = Some 0 -> last le = Some DecimalFacts.d0.
Proof.
  induction le as [|d [|d' le] IH]; simpl; try discriminate.
  - intros [= H]. apply digit_val_zero in H. congruence.
  - exact IH.
Qed.

Lemma parse_nonneg (v : Z) :
  0 <= v -> exists modes, parse_full_opcode v = Ok (modes, v mod 100).
Proof.
  intros Hv. destruct v as [|p|p]; [|destruct (parse_pos p) as (le & _ & _ & H)|lia];
    eauto using parse_zero.
Qed.

(** X1.  For a cell [v] that is not negative, the decoding through the
    decimal text is a decoding by division: the opcode is [v mod 100], the
    mode of operand [i] is the digit [(v / 10^(i+2)) mod 10], and the list
    of modes has exactly the digits [v] has above its two low ones, with no
    leading 0. *)
Theorem parse_full_opcode_by_division (v : Z) :
  0 <= v ->
  exists modes : list Z,
    parse_full_opcode v = Ok (modes, v mod 100) /\
    (forall i : nat, nth i modes 0 = (v / 10 ^ (Z.of_nat i + 2)) mod 10) /\
    v < 10 ^ (len modes + 2) /\
    (modes <> [] -> 10 ^ (len modes + 1) <= v).
Proof.
  intros Hv. destruct v as [|p|p]; [| |lia].
  - exists []. split; [reflexivity|]. split; [|split].
    + intros i. rewrite Z.div_0_l by (apply Z.pow_nonzero; lia).
      destruct i; reflexivity.
    + reflexivity.
    + congruence.
  - destruct (parse_pos p) as (le & Hval & Hlast & Hparse).
    set (ds := map digit_val le) in *.
    assert (Hds : Forall (fun d => 0 <= d <= 9) ds) by apply digits_range.
    exists (drop 2 ds). split; [|split; [|split]].
    + rewrite Hparse. unfold ds. rewrite skipn_map. reflexivity.
    + intros i. rewrite nth_lookup, lookup_drop, <- nth_lookup.
      rewrite le_value_nth by assumption. rewrite Hval.
      do 3 f_equal. lia.
    + pose proof (le_value_bound ds Hds) as [_ Hb]. rewrite Hval in Hb.
      eapply Z.lt_le_trans; [exact Hb|].
      apply Z.pow_le_mono_r; [lia|]. unfold len. rewrite length_drop. lia.
    + intros Hne.
      assert (Hlen : (3 <= length ds)%nat).
      { destruct ds as [|a [|b [|c ds']]]; simpl in *; try congruence; lia. }
      pose proof (le_value_lower ds Hds) as Hlow.
      rewrite Hval in Hlow.
      replace (len (drop 2 ds) + 1) with (len ds - 1)
        by (unfold len; rewrite length_drop; lia).
      apply Hlow.
      * intros E. rewrite E in Hlen. simpl in Hlen. lia.
      * intros E. apply Hlast. apply last_digit_val. exact E.
Qed.

Lemma parse_full_opcode_by_division_witness :
  0 <= 21101 /\
  exists modes : list Z,
    parse_full_opcode 21101 = Ok (modes, 21101 mod 100) /\
    (forall i : nat, nth i modes 0 = (21101 / 10 ^ (Z.of_nat i + 2)) mod 10) /\
    21101 < 10 ^ (len modes + 2) /\
    (modes <> [] -> 10 ^ (len modes + 1) <= 21101).
Proof.
  split; [lia|]. apply (parse_full_opcode_by_division 21101). lia.
Defined.

(** The text of a negative cell starts with the sign, which is no digit. *)
Lemma parse_neg (p : positive) :
  (10 <= Z.pos p -> parse_full_opcode (Z.neg p) = Err ValueError_literal) /\
  (Z.pos p < 10 -> parse_full_opcode (Z.neg p) = Ok ([], Z.neg p)).
Proof.
  destruct (pos_digits p) as (le & Hstr & Hval & Hlast).
  assert (Hds : Forall (fun d => 0 <= d <= 9) (map digit_val le))
    by apply digits_range.
  assert (Htext : str (Z.neg p) = rev (map digit_ascii le ++ ["-"%char])).
  { rewrite str_neg, Hstr, map_rev, rev_unit. reflexivity. }
  unfold parse_full_opcode. rewrite Htext, drop_last2_rev, rev_involutive.
  rewrite last2_rev.
  destruct le as [|d0 [|d1 le]].
  - simpl in Hval. lia.
  - simpl in Hval. pose proof (digit_val_range d0). split; [lia|].
    intros _. simpl. rewrite int_of_str_minus_digit. simpl.
    do 2 f_equal. lia.
  - split.
    + intros _.
      change (drop 2 (map digit_ascii (d0 :: d1 :: le) ++ ["-"%char]))
        with (map digit_ascii le ++ ["-"%char]).
      rewrite comprehension_digits_minus. reflexivity.
    + intros Hsmall. exfalso.
      pose proof (le_value_lower _ Hds ltac:(discriminate)) as Hlow.
      rewrite Hval in Hlow.
      assert (10 <= Z.pos p); [|lia].
      etransitivity; [|apply Hlow].
      * unfold len. simpl length.
        apply (Z.pow_le_mono_r 10 1); lia.
      * intros E. apply Hlast. apply last_digit_val. exact E.
Qed.

(** X2.  A negative cell never executes as an instruction: from -10 down
    the decoding raises [ValueError] (the sign is not a digit), from -9 to
    -1 the decoding gives the cell itself as opcode and the dispatch raises
    [KeyError]; the machine is left as it was. *)
Theorem negative_cell_raises (s : state) (v : Z) :
  np_getitem (code s) (pointer s) = Ok v ->
  v < 0 ->
  (v <= -10 ->
   parse_full_opcode v = Err ValueError_literal /\
   run_body s = Raise ValueError_literal s) /\
  (-10 < v ->
   parse_full_opcode v = Ok ([], v) /\
   run_body s = Raise KeyError s).
Proof.
  intros Hfetch Hv. destruct v as [|p|p]; try lia.
  destruct (parse_neg p) as [Hbig Hsmall].
  unfold run_body, operate. rewrite Hfetch. split; intros Hr.
  - rewrite Hbig by lia. split; reflexivity.
  - rewrite Hsmall by lia. split; reflexivity.
Qed.

Lemma negative_cell_raises_witness :
  np_getitem (code (mkState [-1105; 1] 0 0 [] [] false true true))
             (pointer (mkState [-1105; 1] 0 0 [] [] false true true))
  = Ok (-1105) /\
  -1105 < 0 /\
  run_body (mkState [-1105; 1] 0 0 [] [] false true true) =
    Raise ValueError_literal (mkState [-1105; 1] 0 0 [] [] false true true).
Proof.
  split; [reflexivity|]. split; [lia|].
  apply (negative_cell_raises (mkState [-1105; 1] 0 0 [] [] false true true)
           (-1105) eq_refl); lia.
Defined.

(** X3.  A cell that is not negative and whose two low digits are not an
    opcode of the table raises [KeyError] and leaves the machine as it
    was.  This is what happens when the pointer runs into the zeros behind
    the program. *)
Theorem unknown_opcode_raises (s : state) (v : Z) :
  np_getitem (code s) (pointer s) = Ok v ->
  0 <= v ->
  opcode_dict (v mod 100) = None ->
  run_body s = Raise KeyError s /\
  forall fuel, status_of s = Running -> run_loop (S fuel) s = Raised KeyError s.
Proof.
  intros Hfetch Hv Hd.
  assert (Hbody : run_body s = Raise KeyError s).
  { destruct (parse_nonneg v Hv) as [modes Hparse].
    unfold run_body, operate. rewrite Hfetch, Hparse, Hd. reflexivity. }
  split; [assumption|]. intros fuel Hr.
  apply status_Running in Hr as [Hc Hu].
  apply run_loop_raise; [rewrite Hc, Hu; reflexivity|assumption].
Qed.

Lemma unknown_opcode_raises_witness :
  np_getitem (code (mkState [1101; 1; 1; 5; 0; 0] 4 0 [] [] false true true))
             4 = Ok 0 /\
  0 <= 0 /\
  opcode_dict (0 mod 100) = None /\
  run_body (mkState [1101; 1; 1; 5; 0; 0] 4 0 [] [] false true true) =
    Raise KeyError (mkState [1101; 1; 1; 5; 0; 0] 4 0 [] [] false true true).
Proof.
  split; [reflexivity|]. split; [lia|]. split; [reflexivity|].
  apply (unknown_opcode_raises
           (mkState [1101; 1; 1; 5; 0; 0] 4 0 [] [] false true true) 0
           eq_refl); [lia|reflexivity].
Defined.

(** X5.  [halt] ignores its parameters: every cell that is not negative
    and ends in the digits 99 halts the machine, whatever digits stand
    before; the pointer advances by 1 and nothing else changes. *)
Theorem halt_ignores_modes (s : state) (v : Z) :
  np_getitem (code s) (pointer s) = Ok v ->
  0 <= v ->
  v mod 100 = 99 ->
  run_body s =
    Return tt (set_pointer (pointer s + 1) (set_continue_flag false s)) /\
  forall fuel,
    status_of s = Running ->
    run_loop (S fuel) s =
      Finished (set_pointer (pointer s + 1) (set_continue_flag false s)).
Proof.
  intros Hfetch Hv Hop.
  assert (Hbody : run_body s = Return tt (set_pointer (pointer s + 1)
                                            (set_continue_flag false s))).
  { destruct (parse_nonneg v Hv) as [modes Hparse].
    unfold run_body, operate. rewrite Hfetch, Hparse, Hop. reflexivity. }
  split; [assumption|]. intros fuel Hr.
  apply status_Running in Hr as [Hc Hu].
  erewrite run_loop_step; [|rewrite Hc, Hu; reflexivity|eassumption].
  apply run_loop_stopped. reflexivity.
Qed.

Lemma halt_ignores_modes_witness :
  np_getitem (code (mkState [21299; 7] 0 0 [] [] false true true)) 0
  = Ok 21299 /\
  0 <= 21299 /\ 21299 mod 100 = 99 /\
  run_body (mkState [21299; 7] 0 0 [] [] false true true) =
    Return tt (mkState [21299; 7] 1 0 [] [] false true false).
Proof.
  split; [reflexivity|]. split; [lia|]. split; [reflexivity|].
  apply (halt_ignores_modes (mkState [21299; 7] 0 0 [] [] false true true)
           21299 eq_refl); [lia|reflexivity].
Defined.

(** X4.  [check_modes_length] only ever appends zeros: the result has
    [max (len modes) num_args] modes, every operand keeps the mode its
    digit gave it, an operand without a digit gets mode 0, and padding
    again changes nothing. *)
Theorem check_modes_length_pads (modes : list Z) (num_args : nat) :
  length (check_modes_length modes num_args)
  = Nat.max (length modes) num_args /\
  take (length modes) (check_modes_length modes num_args) = modes /\
  (forall i, nth i (check_modes_length modes num_args) 0 = nth i modes 0) /\
  check_modes_length (check_modes_length modes num_args) num_args
  = check_modes_length modes num_args.
Proof.
  unfold check_modes_length.
  destruct (Nat.ltb_spec (length modes) num_args) as [Hlt|Hge].
  - split; [|split; [|split]].
    + rewrite length_app, length_replicate. lia.
    + apply take_app_length.
    + intros i. rewrite !nth_lookup.
      destruct (Nat.lt_ge_cases i (length modes)) as [Hin|Hout].
      * rewrite lookup_app_l by assumption. reflexivity.
      * rewrite lookup_app_r by assumption.
        rewrite (proj2 (lookup_ge_None modes i) Hout). simpl.
        destruct (replicate _ _ !! _) as [x|] eqn:E; [|reflexivity].
        apply lookup_replicate in E as [-> _]. reflexivity.
    + rewrite length_app, length_replicate.
      destruct (Nat.ltb_spec (length modes + (num_args - length modes))
                  num_args); [lia|reflexivity].
  - split; [|split; [|split]].
    + lia.
    + apply firstn_all.
    + reflexivity.
    + destruct (Nat.ltb_spec (length modes) num_args); [lia|reflexivity].
Qed.

(** ** Instructions that store *)

(** Storing at an accepted address changes that cell and no other. *)
Lemma store_cell (a : list Z) (target value : Z) :
  - len a <= target < len a ->
  exists (c : list Z) (k : nat),
    np_setitem a target value = Ok c /\
    np_index (len a) target = Some k /\
    np_getitem c target = Ok value /\
    length c = length a /\
    forall j, j <> k -> c !! j = a !! j.
Proof.
  intros Hv. destruct (np_index (len a) target) as [k|] eqn:Hk.
  - exists (<[k:=value]> a), k. unfold np_setitem, np_getitem. rewrite Hk.
    pose proof (np_index_Some _ _ _ Hk) as [_ Hlt]. unfold len in Hlt.
    rewrite Nat2Z.id in Hlt.
    split; [reflexivity|]. split; [reflexivity|]. split; [|split].
    + unfold len. rewrite length_insert. fold (len a). rewrite Hk.
      rewrite list_lookup_insert_eq by assumption. reflexivity.
    + apply length_insert.
    + intros j Hj. apply list_lookup_insert_ne. congruence.
  - apply np_index_None in Hk. contradiction.
Qed.

(** X6.  Add and multiply store the [int64] sum or product of their two
    resolved operands at the resolved store address, change no other
    cell, keep the size of the memory, advance the pointer by 4 and leave
    the rest of the machine alone. *)
Theorem add_multiply_store (s : state) (v : Z) (modes : list Z)
    (opcode arg1 arg2 target : Z) :
  np_getitem (code s) (pointer s) = Ok v ->
  parse_full_opcode v = Ok (modes, opcode) ->
  opcode = 1 \/ opcode = 2 ->
  follow_pointers s modes 3 true = Ok [arg1; arg2; target] ->
  valid_address s target ->
  exists (c : list Z) (k : nat),
    run_body s = Return tt (set_pointer (pointer s + 4) (set_code c s)) /\
    np_index (len (code s)) target = Some k /\
    np_getitem c target =
      Ok (if opcode =? 1 then add64 arg1 arg2 else mul64 arg1 arg2) /\
    length c = length (code s) /\
    forall j, j <> k -> c !! j = code s !! j.
Proof.
  intros Hfetch Hparse Hop Hargs Hvalid.
  set (value := if opcode =? 1 then add64 arg1 arg2 else mul64 arg1 arg2).
  destruct (store_cell (code s) target value Hvalid)
    as (c & k & Hset & Hk & Hget & Hlen & Hother).
  exists c, k. split; [|auto].
  unfold run_body, operate. rewrite Hfetch, Hparse.
  destruct Hop as [-> | ->]; simpl; unfold add, multiply; rewrite Hargs;
    subst value; simpl in Hset; rewrite Hset; reflexivity.
Qed.

Lemma add_multiply_store_witness :
  np_getitem (code multiply_example) (pointer multiply_example) = Ok 1002 /\
  parse_full_opcode 1002 = Ok ([0; 1], 2) /\
  follow_pointers multiply_example [0; 1] 3 true = Ok [33; 3; 4] /\
  valid_address multiply_example 4 /\
  exists (c : list Z) (k : nat),
    run_body multiply_example =
      Return tt (set_pointer (pointer multiply_example + 4)
                   (set_code c multiply_example)) /\
    np_index (len (code multiply_example)) 4 = Some k /\
    np_getitem c 4 = Ok (if 2 =? 1 then add64 33 3 else mul64 33 3) /\
    length c = length (code multiply_example) /\
    forall j, j <> k -> c !! j = code multiply_example !! j.
Proof.
  assert (Hv : valid_address multiply_example 4).
  { unfold valid_address, len. simpl. lia. }
  split; [reflexivity|]. split; [reflexivity|]. split; [reflexivity|].
  split; [exact Hv|].
  apply (add_multiply_store multiply_example 1002 [0; 1] 2 33 3 4
           eq_refl eq_refl); [right; reflexivity|reflexivity|exact Hv].
Defined.

(** X7.  Less-than and equals store 1 when the comparison of their two
    resolved operands holds and 0 when it does not, at the resolved store
    address; no other cell changes and the pointer advances by 4. *)
Theorem compare_store (s : state) (v : Z) (modes : list Z)
    (opcode arg1 arg2 target : Z) :
  np_getitem (code s) (pointer s) = Ok v ->
  parse_full_opcode v = Ok (modes, opcode) ->
  opcode = 7 \/ opcode = 8 ->
  follow_pointers s modes 3 true = Ok [arg1; arg2; target] ->
  valid_address s target ->
  exists (c : list Z) (k : nat),
    run_body s = Return tt (set_pointer (pointer s + 4) (set_code c s)) /\
    np_index (len (code s)) target = Some k /\
    (opcode = 7 -> arg1 < arg2 -> np_getitem c target = Ok 1) /\
    (opcode = 7 -> arg2 <= arg1 -> np_getitem c target = Ok 0) /\
    (opcode = 8 -> arg1 = arg2 -> np_getitem c target = Ok 1) /\
    (opcode = 8 -> arg1 <> arg2 -> np_getitem c target = Ok 0) /\
    length c = length (code s) /\
    forall j, j <> k -> c !! j = code s !! j.
Proof.
  intros Hfetch Hparse Hop Hargs Hvalid.
  set (value := if opcode =? 7
                then (if arg1 <? arg2 then 1 else 0)
                else (if arg1 =? arg2 then 1 else 0)).
  destruct (store_cell (code s) target value Hvalid)
    as (c & k & Hset & Hk & Hget & Hlen & Hother).
  exists c, k. split.
  - unfold run_body, operate. rewrite Hfetch, Hparse.
    destruct Hop as [-> | ->]; simpl; unfold less_than, equals;
      rewrite Hargs; subst value; simpl in Hset; rewrite Hset; reflexivity.
  - split; [assumption|]. rewrite Hget. subst value.
    repeat split; try assumption; intros -> Hcmp; simpl.
    + destruct (Z.ltb_spec arg1 arg2); [reflexivity|lia].
    + destruct (Z.ltb_spec arg1 arg2); [lia|reflexivity].
    + destruct (Z.eqb_spec arg1 arg2); [reflexivity|contradiction].
    + destruct (Z.eqb_spec arg1 arg2); [contradiction|reflexivity].
Qed.

Lemma compare_store_witness :
  exists (c : list Z) (k : nat),
    run_body (mkState [1107; 3; 5; 4; 99] 0 0 [] [] false true true) =
      Return tt (set_pointer 4
                   (set_code c
                      (mkState [1107; 3; 5; 4; 99] 0 0 [] [] false true true)))
    /\ np_getitem c 4 = Ok 1.
Proof.
  assert (Hv : valid_address
                 (mkState [1107; 3; 5; 4; 99] 0 0 [] [] false true true) 4).
  { unfold valid_address, len. simpl. lia. }
  destruct (compare_store
              (mkState [1107; 3; 5; 4; 99] 0 0 [] [] false true true)
              1107 [1; 1] 7 3 5 4 eq_refl eq_refl
              (or_introl eq_refl) eq_refl Hv)
    as (c & k & Hrun & _ & Hlt & _).
  exists c, k. split; [exact Hrun|]. apply Hlt; [reflexivity|lia].
Defined.

(** X8.  The input instruction takes the head of the input queue: an
    [int64] integer is stored at the resolved store address (no other cell
    changes) and the pointer advances by 2; [None] raises [TypeError] and
    an integer beyond [int64] raises [OverflowError], in both cases with
    the value already taken off the queue and the memory unchanged. *)
Theorem input_takes_head (s : state) (v : Z) (modes : list Z) (target : Z)
    (x : pyval) (q : list pyval) :
  np_getitem (code s) (pointer s) = Ok v ->
  parse_full_opcode v = Ok (modes, 3) ->
  follow_pointers s modes 1 true = Ok [target] ->
  valid_address s target ->
  input_queue s = x :: q ->
  match x with
  | PyNone => run_body s = Raise TypeError (set_input_queue q s)
  | PyInt z =>
      if in_int64 z then
        exists (c : list Z) (k : nat),
          run_body s =
            Return tt (set_pointer (pointer s + 2)
                         (set_code c (set_input_queue q s))) /\
          np_index (len (code s)) target = Some k /\
          np_getitem c target = Ok z /\
          length c = length (code s) /\
          forall j, j <> k -> c !! j = code s !! j
      else run_body s = Raise OverflowError (set_input_queue q s)
  end.
Proof.
  intros Hfetch Hparse Hargs Hvalid Hq.
  assert (Hbody : run_body s =
            match np_setitem_obj (code s) target x with
            | Ok c => Return tt (set_pointer (pointer s + 2)
                                   (set_code c (set_input_queue q s)))
            | Err e => Raise e (set_input_queue q s)
            end).
  { unfold run_body, operate. rewrite Hfetch, Hparse. simpl.
    unfold input. rewrite Hargs. simpl. rewrite Hq. simpl.
    destruct (np_setitem_obj (code s) target x); reflexivity. }
  rewrite Hbody. unfold np_setitem_obj.
  destruct x as [|z].
  - destruct (np_index (len (code s)) target) eqn:Hk; [reflexivity|].
    apply np_index_None in Hk. contradiction.
  - destruct (in_int64 z).
    + destruct (store_cell (code s) target z Hvalid)
        as (c & k & Hset & Hk & Hget & Hlen & Hother).
      unfold np_setitem in Hset. rewrite Hk in *. injection Hset as <-.
      eauto 10.
    + destruct (np_index (len (code s)) target) eqn:Hk; [reflexivity|].
      apply np_index_None in Hk. contradiction.
Qed.

Lemma input_takes_head_witness :
  run_body (mkState [3; 0; 99] 0 0 [PyNone] [] false true true) =
    Raise TypeError (mkState [3; 0; 99] 0 0 [] [] false true true).
Proof.
  assert (Hv : valid_address
                 (mkState [3; 0; 99] 0 0 [PyNone] [] false true true) 0).
  { unfold valid_address, len. simpl. lia. }
  exact (input_takes_head
           (mkState [3; 0; 99] 0 0 [PyNone] [] false true true)
           3 [] 0 PyNone [] eq_refl eq_refl eq_refl Hv eq_refl).
Defined.

(** ** What a run keeps *)

Lemma np_setitem_length (a c : list Z) (i v : Z) :
  np_setitem a i v = Ok c -> length c = length a.
Proof.
  unfold np_setitem. destruct (np_index (len a) i); [|discriminate].
  intros [= <-]. apply length_insert.
Qed.

Lemma np_setitem_obj_length (a c : list Z) (i : Z) (v : pyval) :
  np_setitem_obj a i v = Ok c -> length c = length a.
Proof.
  unfold np_setitem_obj. destruct (np_index (len a) i); [|discriminate].
  destruct v as [|z]; [discriminate|].
  destruct (in_int64 z); [|discriminate].
  intros [= <-]. apply length_insert.
Qed.

Ltac keeps_goal :=
  repeat match goal with
         | H : np_setitem _ _ _ = Ok _ |- _ => apply np_setitem_length in H
         | H : np_setitem_obj _ _ _ = Ok _ |- _ =>
             apply np_setitem_obj_length in H
         end;
  simpl in *;
  split; [first [reflexivity | assumption]|];
  split;
    [first [exists []; rewrite app_nil_r; reflexivity
           | eexists; reflexivity]
    |first [exists []; reflexivity
           | match goal with
             | |- exists used, ?x :: _ = used ++ _ =>
                 exists [x]; reflexivity
             | H : input_queue ?s = [] |- _ =>
                 exists []; rewrite H; reflexivity
             end]].

(** Whether it returns or raises, an instruction keeps the size of the
    memory, only appends to the output log and only takes from the front
    of the input queue. *)
Lemma opfunc_keeps (opcode : Z) (opfunc : list Z -> state -> exec Z)
    (modes : list Z) (s s' : state) :
  opcode_dict opcode = Some opfunc ->
  (exists toadd, opfunc modes s = Return toadd s') \/
  (exists e, opfunc modes s = Raise e s') ->
  length (code s') = length (code s) /\
  (exists vs, output_log s' = output_log s ++ vs) /\
  (exists used, input_queue s = used ++ input_queue s').
Proof.
  intros Hd [[toadd Hrun]|[e Hrun]];
    destruct (opcode_dict_inv _ _ Hd)
      as [[-> ->]|[[-> ->]|[[-> ->]|[[-> ->]|[[-> ->]|[[-> ->]|[[-> ->]|
          [[-> ->]|[[-> ->]|[-> ->]]]]]]]]]];
    cbv delta [add multiply input output jump_if_true jump_if_false
               less_than equals shift halt] in Hrun;
    cbv beta zeta in Hrun; exec_cases Hrun; injection Hrun as <- <-;
    keeps_goal.
Qed.

Lemma run_body_keeps (s s' : state) :
  (run_body s = Return tt s') \/ (exists e, run_body s = Raise e s') ->
  length (code s') = length (code s) /\
  (exists vs, output_log s' = output_log s ++ vs) /\
  (exists used, input_queue s = used ++ input_queue s').
Proof.
  assert (Hsame : length (code s) = length (code s) /\
            (exists vs, output_log s = output_log s ++ vs) /\
            (exists used, input_queue s = used ++ input_queue s)).
  { split; [reflexivity|]. split; exists []; [rewrite app_nil_r|];
      reflexivity. }
  unfold run_body, operate. intros Hrun.
  destruct (np_getitem (code s) (pointer s)) as [full_opcode|].
  2: { destruct Hrun as [Hrun|[e0 Hrun]]; [discriminate|].
       injection Hrun as <- <-. exact Hsame. }
  destruct (parse_full_opcode full_opcode) as [[modes opcode]|].
  2: { destruct Hrun as [Hrun|[e0 Hrun]]; [discriminate|].
       injection Hrun as <- <-. exact Hsame. }
  destruct (opcode_dict opcode) as [opfunc|] eqn:Hd.
  2: { destruct Hrun as [Hrun|[e0 Hrun]]; [discriminate|].
       injection Hrun as <- <-. exact Hsame. }
  destruct (opfunc modes s) as [toadd s1|e1 s1] eqn:Hop.
  - destruct Hrun as [Hrun|[e0 Hrun]]; [|discriminate].
    injection Hrun as <-. simpl.
    apply (opfunc_keeps _ _ modes s s1 Hd). left. eauto.
  - destruct Hrun as [Hrun|[e0 Hrun]]; [discriminate|].
    injection Hrun as <- <-.
    apply (opfunc_keeps _ _ modes s s1 Hd). right. eauto.
Qed.

Lemma run_loop_keeps (fuel : nat) :
  forall s s' : state,
    final_state (run_loop fuel s) = Some s' ->
    length (code s') = length (code s) /\
    (exists vs, output_log s' = output_log s ++ vs) /\
    (exists used, input_queue s = used ++ input_queue s').
Proof.
  induction fuel as [|fuel IH]; intros s s' Hrun; simpl in Hrun;
    destruct (continue_flag s && unpaused_flag s); try discriminate;
    try (injection Hrun as <-; split; [reflexivity|];
         split; exists []; [rewrite app_nil_r|]; reflexivity).
  destruct (run_body s) as [[] s1|e1 s1] eqn:Hbody.
  - destruct (run_body_keeps s s1 (or_introl Hbody))
      as (Hl1 & [vs1 Ho1] & [u1 Hq1]).
    destruct (IH s1 s' Hrun) as (Hl2 & [vs2 Ho2] & [u2 Hq2]).
    split; [congruence|]. split.
    + exists (vs1 ++ vs2). rewrite Ho2, Ho1, app_assoc. reflexivity.
    + exists (u1 ++ u2). rewrite Hq1, Hq2, app_assoc. reflexivity.
  - injection Hrun as <-. apply run_body_keeps. right. eauto.
Qed.

(** X11.  The memory never grows or shrinks: whether [run] or [resume]
    returns or raises, the memory has as many cells as before the call. *)
Theorem capacity_is_constant (fuel : nat) (input_value : pyinput)
    (s s' : state) :
  final_state (run fuel input_value s) = Some s' \/
  final_state (resume fuel input_value s) = Some s' ->
  length (code s') = length (code s).
Proof.
  intros [Hrun|Hrun]; unfold resume, run in Hrun;
    apply run_loop_keeps in Hrun as [Hlen _]; exact Hlen.
Qed.

Lemma capacity_is_constant_witness :
  length (code (three_outputs_at 4 [PyInt 0] [11; 22] false true))
  = length (code (three_outputs_at 2 [PyInt 0] [11] false true)).
Proof.
  apply (capacity_is_constant 100 (scalar 0)
           (three_outputs_at 2 [PyInt 0] [11] false true)).
  right. vm_compute. reflexivity.
Defined.

(** X12.  The output log is append-only: whether [run] or [resume]
    returns or raises, the log it leaves is the log before the call
    followed by the values put out during the call. *)
Theorem output_log_is_append_only (fuel : nat) (input_value : pyinput)
    (s s' : state) :
  final_state (run fuel input_value s) = Some s' \/
  final_state (resume fuel input_value s) = Some s' ->
  exists vs, output_log s' = output_log s ++ vs.
Proof.
  intros [Hrun|Hrun]; unfold resume, run in Hrun;
    apply run_loop_keeps in Hrun as (_ & Hout & _); exact Hout.
Qed.

Lemma output_log_is_append_only_witness :
  exists vs,
    output_log (three_outputs_at 4 [PyInt 0] [11; 22] false true)
    = output_log (three_outputs_at 2 [PyInt 0] [11] false true) ++ vs.
Proof.
  apply (output_log_is_append_only 100 (scalar 0)
           (three_outputs_at 2 [PyInt 0] [11] false true)).
  right. vm_compute. reflexivity.
Defined.

(** X13.  The input is taken in order from the front: the queue a call
    leaves is what remains of the values given to that call after some of
    the first ones were taken; values left in the queue by an earlier call
    are never read. *)
Theorem input_is_taken_in_order (fuel : nat) (input_value : pyinput)
    (s s' : state) :
  final_state (run fuel input_value s) = Some s' \/
  final_state (resume fuel input_value s) = Some s' ->
  exists used, input_list input_value = used ++ input_queue s'.
Proof.
  intros [Hrun|Hrun]; unfold resume, run in Hrun;
    apply run_loop_keeps in Hrun as (_ & _ & Hq); exact Hq.
Qed.

Lemma input_is_taken_in_order_witness :
  exists used,
    input_list (InList [PyInt 5; PyInt 6; PyInt 7])
    = used ++ [PyInt 7].
Proof.
  apply (input_is_taken_in_order 10 (InList [PyInt 5; PyInt 6; PyInt 7])
           (mkState [3; 0; 3; 1; 99] 0 0 [PyInt 1] [] false true true)
           (mkState [5; 6; 3; 1; 99] 5 0 [PyInt 7] [] false true false)).
  left. vm_compute. reflexivity.
Defined.

(** ** Running without pauses *)

Lemma run_loop_no_pause (fuel : nat) :
  forall s s' : state,
    allow_pausing s = false -> unpaused_flag s = true ->
    run_loop fuel s = Finished s' ->
    unpaused_flag s' = true /\ continue_flag s' = false /\
    allow_pausing s' = false.
Proof.
  induction fuel as [|fuel IH]; intros s s' Hallow Hunp Hrun;
    simpl in Hrun; destruct (continue_flag s) eqn:Hc; rewrite Hunp in Hrun;
    simpl in Hrun; try discriminate;
    try (injection Hrun as <-; auto).
  destruct (run_body s) as [[] s1|] eqn:Hbody; [|discriminate].
  destruct (run_body_return _ _ Hbody) as [Ha [[_ Hu]|(_ & Hu & _)]].
  - apply (IH s1 s'); congruence.
  - rewrite Hallow in Hu. apply (IH s1 s'); congruence.
Qed.

(** X9.  When pausing is not allowed, output never pauses the machine: a
    call of [resume], or of [run] on a machine that is not paused, returns
    only when the machine has halted. *)
Theorem run_without_pausing_halts (fuel : nat) (input_value : pyinput)
    (s s' : state) :
  allow_pausing s = false ->
  (unpaused_flag s = true /\ run fuel input_value s = Finished s') \/
  resume fuel input_value s = Finished s' ->
  status_of s' = Halted /\ unpaused_flag s' = true.
Proof.
  intros Hallow [[Hunp Hrun]|Hrun]; unfold resume, run in Hrun;
    apply run_loop_no_pause in Hrun as (Hu & Hc & _); try assumption;
    try reflexivity; (split; [apply status_Halted|]; assumption).
Qed.

Lemma run_without_pausing_halts_witness :
  status_of (mkState (three_outputs ++ [0; 0; 0]) 7 0 [PyInt 0]
               [11; 22; 33] false true false) = Halted /\
  unpaused_flag (mkState (three_outputs ++ [0; 0; 0]) 7 0 [PyInt 0]
                   [11; 22; 33] false true false) = true.
Proof.
  apply (run_without_pausing_halts 100 (scalar 0)
           (mkState (three_outputs ++ [0; 0; 0]) 0 0 [] [] false true true)).
  - reflexivity.
  - left. split; [reflexivity|]. vm_compute. reflexivity.
Defined.

(** ** What each opcode touches *)

(** X10.  An instruction that returns touches only what belongs to its
    opcode: the memory is changed by opcodes 1, 2, 3, 7 and 8 only, the
    relative base by 9 only, the output log and the pause flag by 4 only,
    the input queue by 3 only, the halt flag by 99 only, [allow_pausing]
    by none; and but for the two jumps the pointer advances by the number
    of operands plus one. *)
Theorem instruction_frame (s s' : state) (v : Z) (modes : list Z)
    (opcode : Z) :
  np_getitem (code s) (pointer s) = Ok v ->
  parse_full_opcode v = Ok (modes, opcode) ->
  run_body s = Return tt s' ->
  allow_pausing s' = allow_pausing s /\
  (opcode <> 1 -> opcode <> 2 -> opcode <> 3 -> opcode <> 7 ->
   opcode <> 8 -> code s' = code s) /\
  (opcode <> 9 -> relative_base s' = relative_base s) /\
  (opcode <> 4 ->
   output_log s' = output_log s /\ unpaused_flag s' = unpaused_flag s) /\
  (opcode <> 3 -> input_queue s' = input_queue s) /\
  (opcode <> 99 -> continue_flag s' = continue_flag s) /\
  (opcode <> 5 -> opcode <> 6 -> pointer s' = pointer s + arity opcode + 1).
Proof.
  intros Hfetch Hparse Hrun. unfold run_body, operate in Hrun.
  rewrite Hfetch, Hparse in Hrun.
  destruct (opcode_dict opcode) as [opfunc|] eqn:Hd; [|discriminate].
  destruct (opfunc modes s) as [toadd s1|] eqn:Hop; [|discriminate].
  injection Hrun as <-.
  destruct (opcode_dict_inv _ _ Hd)
    as [[-> ->]|[[-> ->]|[[-> ->]|[[-> ->]|[[-> ->]|[[-> ->]|[[-> ->]|
        [[-> ->]|[[-> ->]|[-> ->]]]]]]]]]];
    cbv delta [add multiply input output jump_if_true jump_if_false
               less_than equals shift halt] in Hop;
    cbv beta zeta in Hop; exec_cases Hop; injection Hop as <- <-;
    simpl; repeat split; intros; try reflexivity; try congruence; lia.
Qed.

Lemma instruction_frame_witness :
  np_getitem (code jump_example) (pointer jump_example) = Ok 1105 /\
  parse_full_opcode 1105 = Ok ([1; 1], 5) /\
  run_body jump_example = Return tt (set_pointer 4 jump_example) /\
  allow_pausing (set_pointer 4 jump_example) = allow_pausing jump_example.
Proof.
  split; [reflexivity|]. split; [reflexivity|]. split; [reflexivity|].
  exact (proj1 (instruction_frame jump_example (set_pointer 4 jump_example)
                  1105 [1; 1] 5 eq_refl eq_refl eq_refl)).
Defined.

(** ** The [int64] memory *)

Lemma run_body_raise_frame (s s' : state) (e : pyerror) :
  run_body s = Raise e s' ->
  code s' = code s /\ relative_base s' = relative_base s.
Proof.
  unfold run_body, operate. intros Hrun.
  destruct (np_getitem (code s) (pointer s)) as [full_opcode|];
    [|injection Hrun as <- <-; auto].
  destruct (parse_full_opcode full_opcode) as [[modes opcode]|];
    [|injection Hrun as <- <-; auto].
  destruct (opcode_dict opcode) as [opfunc|] eqn:Hd;
    [|injection Hrun as <- <-; auto].
  destruct (opfunc modes s) as [toadd s1|e1 s1] eqn:Hop; [discriminate|].
  injection Hrun as <- <-.
  destruct (opfunc_raise _ _ _ _ _ _ Hd Hop) as (H1 & _ & H2 & _). auto.
Qed.

Lemma run_loop_int64_final (fuel : nat) :
  forall s s' : state,
    int64_state s -> final_state (run_loop fuel s) = Some s' ->
    int64_state s'.
Proof.
  induction fuel as [|fuel IH]; intros s s' Hs Hrun; simpl in Hrun;
    destruct (continue_flag s && unpaused_flag s); try discriminate;
    try (injection Hrun as <-; assumption).
  destruct (run_body s) as [[] s1|e1 s1] eqn:Hbody.
  - eauto using run_body_int64.
  - injection Hrun as <-.
    destruct (run_body_raise_frame _ _ _ Hbody) as [Hc Hb].
    destruct Hs as [Hs1 Hs2]. split; congruence.
Qed.

(** X14.  Every cell of the memory and the relative base are [int64]
    values from the construction on: the construction gives such a
    machine, and [run] and [resume] keep it so, whether they return or
    raise. *)
Theorem int64_is_kept :
  (forall (program : list Z) (allow : bool) (code_size : Z) (s : state),
     __init__ program allow code_size = Ok s -> int64_state s) /\
  (forall (fuel : nat) (input_value : pyinput) (s s' : state),
     int64_state s ->
     final_state (run fuel input_value s) = Some s' \/
     final_state (resume fuel input_value s) = Some s' ->
     int64_state s').
Proof.
  split.
  - apply init_int64.
  - intros fuel input_value s s' Hs [Hrun|Hrun]; unfold resume, run in Hrun;
      apply run_loop_int64_final in Hrun; try assumption; exact Hs.
Qed.

Lemma int64_is_kept_witness :
  int64_state (mkState [1; 5; 6; 0; 99; 9223372036854775807; 1] 0 0 [] []
                 false true true) /\
  int64_state (mkState [-9223372036854775808; 5; 6; 0; 99;
                        9223372036854775807; 1] 5 0 [PyInt 0] []
                 false true false).
Proof.
  assert (Hs : int64_state (mkState [1; 5; 6; 0; 99; 9223372036854775807; 1]
                              0 0 [] [] false true true)).
  { split; [|reflexivity]. repeat constructor. }
  split; [exact Hs|].
  apply (proj2 int64_is_kept 10%nat (scalar 0)
           (mkState [1; 5; 6; 0; 99; 9223372036854775807; 1] 0 0 [] []
              false true true)); [exact Hs|].
  left. vm_compute. reflexivity.
Defined.

(** ** Exceptions *)

Lemma int_of_str_error (t : list ascii) (e : pyerror) :
  int_of_str t = Err e -> e = ValueError_literal.
Proof.
  unfold int_of_str. destruct (NilZero.int_of_string _); congruence.
Qed.

Lemma comprehension_error (l : list ascii) (e : pyerror) :
  comprehension int_of_char l = Err e -> e = ValueError_literal.
Proof.
  induction l as [|c l IH]; [discriminate|]. simpl.
  destruct (int_of_char c) eqn:Hc; simpl.
  - destruct (comprehension int_of_char l); simpl; [discriminate|].
    intros [= <-]. apply IH. reflexivity.
  - intros [= <-]. eapply int_of_str_error. exact Hc.
Qed.

Lemma parse_error (v : Z) (e : pyerror) :
  parse_full_opcode v = Err e -> e = ValueError_literal.
Proof.
  unfold parse_full_opcode.
  destruct (comprehension _ _) eqn:Hc; simpl.
  - destruct (int_of_str _) eqn:Hs; simpl; [discriminate|].
    intros [= <-]. eapply int_of_str_error. exact Hs.
  - intros [= <-]. eapply comprehension_error. exact Hc.
Qed.

Lemma check_modes_length_ge (modes : list Z) (num_args : nat) :
  (num_args <= length (check_modes_length modes num_args))%nat.
Proof.
  unfold check_modes_length.
  destruct (Nat.ltb_spec (length modes) num_args).
  - rewrite length_app, length_replicate. lia.
  - assumption.
Qed.

(** With at least one operand asked for, [follow_pointers] raises nothing
    but the [IndexError] of numpy. *)
Lemma follow_pointers_raises_IndexError (s : state) (modes : list Z)
    (num_args : nat) (has_output : bool) (e : pyerror) :
  (1 <= num_args)%nat ->
  follow_pointers s modes num_args has_output = Err e ->
  e = IndexError_bounds.
Proof.
  intros Hn. unfold follow_pointers.
  pose proof (np_slice_length (code s) (pointer s + 1) num_args) as Hle.
  pose proof (check_modes_length_ge modes num_args) as Hge.
  destruct (follow_loop _ _ _ _) as [args1|e1] eqn:Hloop; simpl.
  - unfold getlast. destruct (last args1); simpl; [|congruence].
    destruct (last (check_modes_length modes num_args)) eqn:Hl; simpl.
    + repeat match goal with
             | |- context [if ?c then _ else _] => destruct c
             | |- context [np_getitem ?a ?i] =>
                 let E := fresh "E" in
                 destruct (np_getitem a i) eqn:E; simpl;
                 [|apply np_getitem_error in E]
             end; congruence.
    + apply last_None in Hl. rewrite Hl in Hge. simpl in Hge. lia.
  - intros [= <-]. eapply follow_loop_error; [|exact Hloop].
    intros i Hi. apply elem_of_seq in Hi. lia.
Qed.

Lemma np_setitem_error (a : list Z) (i v : Z) (e : pyerror) :
  np_setitem a i v = Err e -> e = IndexError_bounds.
Proof. unfold np_setitem. destruct (np_index _ _); congruence. Qed.

Lemma np_setitem_obj_error (a : list Z) (i : Z) (v : pyval) (e : pyerror) :
  np_setitem_obj a i v = Err e ->
  e = IndexError_bounds \/ e = TypeError \/ e = OverflowError.
Proof.
  unfold np_setitem_obj. destruct (np_index _ _); [|intros [= <-]; auto].
  destruct v as [|z]; [intros [= <-]; auto|].
  destruct (in_int64 z); [discriminate|intros [= <-]; auto].
Qed.

Lemma getitem_error (e0 e : pyerror) (l : list Z) (i : nat) :
  getitem e0 l i = Err e -> e = e0.
Proof. unfold getitem. destruct (l !! i); congruence. Qed.

Ltac name_errors :=
  repeat match goal with
         | H : follow_pointers _ _ _ _ = Err _ |- _ =>
             apply follow_pointers_raises_IndexError in H; [subst|lia]
         | H : getitem _ _ _ = Err _ |- _ => apply getitem_error in H; subst
         | H : np_setitem _ _ _ = Err _ |- _ =>
             apply np_setitem_error in H; subst
         | H : np_setitem_obj _ _ _ = Err _ |- _ =>
             apply np_setitem_obj_error in H;
             destruct H as [ -> | [ -> | -> ] ]
         end.

(** X15.  An instruction that raises leaves the machine exactly as it was,
    but for an input instruction whose store fails: that one has already
    taken the head of the input queue.  The exceptions are [IndexError]
    (of numpy or of [pop]), [KeyError], [ValueError] (of [int] or of an
    unpacking), [TypeError] and [OverflowError], and no other. *)
Theorem failing_instruction (s s' : state) (e : pyerror) :
  run_body s = Raise e s' ->
  (s' = s \/
   exists x q,
     input_queue s = x :: q /\ s' = set_input_queue q s /\
     (e = IndexError_bounds \/ e = TypeError \/ e = OverflowError)) /\
  (e = IndexError_bounds \/ e = IndexError_pop \/ e = KeyError \/
   e = ValueError_unpack \/ e = ValueError_literal \/ e = TypeError \/
   e = OverflowError).
Proof.
  unfold run_body, operate. intros Hrun.
  destruct (np_getitem (code s) (pointer s)) as [full_opcode|e0] eqn:Hf.
  2: { injection Hrun as <- <-. apply np_getitem_error in Hf. subst e0.
       auto. }
  destruct (parse_full_opcode full_opcode) as [[modes opcode]|e0] eqn:Hp.
  2: { injection Hrun as <- <-. apply parse_error in Hp. subst e0.
       auto 10. }
  destruct (opcode_dict opcode) as [opfunc|] eqn:Hd;
    [|injection Hrun as <- <-; auto 10].
  destruct (opfunc modes s) as [toadd s1|e1 s1] eqn:Hop; [discriminate|].
  injection Hrun as <- <-.
  destruct (opcode_dict_inv _ _ Hd)
    as [[-> ->]|[[-> ->]|[[-> ->]|[[-> ->]|[[-> ->]|[[-> ->]|[[-> ->]|
        [[-> ->]|[[-> ->]|[-> ->]]]]]]]]]];
    cbv delta [add multiply input output jump_if_true jump_if_false
               less_than equals shift halt] in Hop;
    cbv beta zeta in Hop; exec_cases Hop; injection Hop as <- <-;
    name_errors;
    (split; [first [left; reflexivity | right; eauto 10]|auto 10]).
Qed.

Lemma failing_instruction_witness :
  run_body (mkState [3; 9; 99] 0 0 [PyInt 5] [] false true true) =
    Raise IndexError_bounds (mkState [3; 9; 99] 0 0 [] [] false true true)
  /\
  (IndexError_bounds = IndexError_bounds \/
   IndexError_bounds = IndexError_pop \/ IndexError_bounds = KeyError \/
   IndexError_bounds = ValueError_unpack \/
   IndexError_bounds = ValueError_literal \/
   IndexError_bounds = TypeError \/ IndexError_bounds = OverflowError).
Proof.
  split; [reflexivity|].
  exact (proj2 (failing_instruction
                  (mkState [3; 9; 99] 0 0 [PyInt 5] [] false true true)
                  (mkState [3; 9; 99] 0 0 [] [] false true true)
                  IndexError_bounds eq_refl)).
Defined.

(** ** Initialising a machine again *)

(** X16.  [initialize_code] on a machine that has run resets the pointer
    and the halt flag and writes the program over the front of the
    memory; it does not clear the cells behind the program, and it keeps
    the relative base, the output log, the pause flag, the input queue
    and the size of the memory. *)
Theorem initialize_code_keeps_rest (s s' : state) (program : list Z) :
  initialize_code s program = Ok s' ->
  pointer s' = 0 /\ continue_flag s' = true /\
  relative_base s' = relative_base s /\ output_log s' = output_log s /\
  unpaused_flag s' = unpaused_flag s /\ input_queue s' = input_queue s /\
  allow_pausing s' = allow_pausing s /\
  length (code s') = length (code s) /\
  (forall k, (length program <= k)%nat -> code s' !! k = code s !! k) /\
  ((length program <= length (code s))%nat ->
   take (length program) (code s') = program).
Proof.
  unfold initialize_code, np_array. intros Hinit.
  destruct (forallb in_int64 program); [|discriminate]. simpl in Hinit.
  destruct (np_setslice_prefix (code s) (len program) program) as [c|] eqn:Hc;
    [|discriminate].
  injection Hinit as <-. simpl.
  do 7 (split; [reflexivity|]).
  split; [eapply np_setslice_prefix_length; exact Hc|].
  unfold np_setslice_prefix in Hc. rewrite slice_bound_prefix in Hc.
  destruct (Nat.eqb_spec (length program)
              (Nat.min (length program) (length (code s)))) as [Heq|Hne].
  - injection Hc as <-. split.
    + intros k Hk. rewrite lookup_app_r by assumption.
      rewrite lookup_drop. f_equal. lia.
    + intros _. apply take_app_length.
  - destruct program as [|x [|y program]]; try discriminate.
    injection Hc as <-. simpl length in *.
    assert (Hempty : length (code s) = 0%nat) by lia.
    rewrite Hempty. simpl. split; [reflexivity|]. lia.
Qed.

Lemma initialize_code_keeps_rest_witness :
  initialize_code (mkState [109; 5; 204; 1; 99; 0; 7; 0] 5 5 [] [7]
                     false true false) [99]
  = Ok (mkState [99; 5; 204; 1; 99; 0; 7; 0] 0 5 [] [7] false true true) /\
  relative_base (mkState [99; 5; 204; 1; 99; 0; 7; 0] 0 5 [] [7]
                   false true true) = 5.
Proof.
  split; [reflexivity|].
  exact (proj1 (proj2 (proj2 (initialize_code_keeps_rest
           (mkState [109; 5; 204; 1; 99; 0; 7; 0] 5 5 [] [7]
              false true false)
           (mkState [99; 5; 204; 1; 99; 0; 7; 0] 0 5 [] [7] false true true)
           [99] eq_refl)))).
Defined.

(** ** Instructions at the end of the memory *)

Lemma follow_pointers_slice_length (s : state) (modes : list Z)
    (num_args : nat) (has_output : bool) (args : list Z) :
  follow_pointers s modes num_args has_output = Ok args ->
  length args =
  length (np_slice (code s) (pointer s + 1)
                   (pointer s + 1 + Z.of_nat num_args)).
Proof.
  unfold follow_pointers. intros Hrun.
  destruct (follow_loop _ _ _ _) as [args1|] eqn:Hloop; [|discriminate].
  apply follow_loop_length in Hloop. simpl in Hrun.
  destruct (getlast IndexError_bounds args1); [|discriminate].
  simpl in Hrun.
  destruct (getlast IndexError_list _); [|discriminate].
  simpl in Hrun. rewrite <- Hloop.
  repeat match type of Hrun with
         | context [if ?c then _ else _] => destruct c
         | context [rbind ?r _] => destruct r; simpl in Hrun
         end;
    try discriminate; injection Hrun as <-;
    rewrite ?length_insert; reflexivity.
Qed.

Lemma np_slice_inside (a : list Z) (start : Z) (n : nat) :
  0 <= start -> (1 <= n)%nat ->
  length (np_slice a start (start + Z.of_nat n)) = n ->
  start + Z.of_nat n <= len a.
Proof.
  unfold np_slice, slice_bound, len. intros Hs Hn.
  destruct (Z.ltb_spec start 0); [lia|].
  destruct (Z.ltb_spec (start + Z.of_nat n) 0); [lia|].
  rewrite length_take, length_drop. lia.
Qed.

(** X17.  An instruction returns only if the memory holds all its operand
    cells: with a pointer that is not negative, the last operand cell,
    [pointer + arity], is inside the memory.  An instruction cut short by
    the end of the memory raises instead. *)
Theorem instruction_needs_its_operands (s s' : state) (v : Z)
    (modes : list Z) (opcode : Z) :
  np_getitem (code s) (pointer s) = Ok v ->
  parse_full_opcode v = Ok (modes, opcode) ->
  0 <= pointer s ->
  run_body s = Return tt s' ->
  pointer s + arity opcode < len (code s).
Proof.
  intros Hfetch Hparse Hp Hrun.
  assert (Hin : pointer s < len (code s)).
  { assert (Hv : exists x, np_getitem (code s) (pointer s) = Ok x) by eauto.
    apply np_getitem_range in Hv. lia. }
  unfold run_body, operate in Hrun. rewrite Hfetch, Hparse in Hrun.
  destruct (opcode_dict opcode) as [opfunc|] eqn:Hd; [|discriminate].
  destruct (opfunc modes s) as [toadd s1|] eqn:Hop; [|discriminate].
  clear Hrun.
  destruct (opcode_dict_inv _ _ Hd)
    as [[-> ->]|[[-> ->]|[[-> ->]|[[-> ->]|[[-> ->]|[[-> ->]|[[-> ->]|
        [[-> ->]|[[-> ->]|[-> ->]]]]]]]]]];
    cbv delta [add multiply input output jump_if_true jump_if_false
               less_than equals shift halt] in Hop;
    cbv beta zeta in Hop; exec_cases Hop; subst; simpl arity; try lia;
    match goal with
    | H : follow_pointers _ _ ?n _ = Ok ?args |- _ =>
        pose proof (follow_pointers_length _ _ _ _ _ H) as Hlen;
        apply follow_pointers_slice_length in H;
        assert (Hfull : length args = n) by (simpl in *; lia);
        rewrite Hfull in H; symmetry in H;
        apply np_slice_inside in H; lia
    end.
Qed.

Lemma instruction_needs_its_operands_witness :
  pointer multiply_example + arity 2 < len (code multiply_example).
Proof.
  apply (instruction_needs_its_operands multiply_example
           (mkState [1002; 4; 3; 4; 99] 4 0 [] [] false true true)
           1002 [0; 1] 2 eq_refl eq_refl); [simpl; lia|reflexivity].
Defined.

Example truncated_add_raises :
  run_body (mkState [99; 0; 1101; 4] 2 0 [] [] false true true)
  = Raise ValueError_unpack (mkState [99; 0; 1101; 4] 2 0 [] [] false true true).
Proof. reflexivity. Qed.

(** ** Relative addressing *)

Lemma np_getitem_nonneg (a : list Z) (i x : Z) :
  0 <= i -> a !! Z.to_nat i = Some x -> np_getitem a i = Ok x.
Proof.
  intros Hi Hx. unfold np_getitem.
  pose proof (lookup_lt_Some _ _ _ Hx) as Hlt.
  rewrite np_index_nonneg by (unfold len; lia). rewrite Hx. reflexivity.
Qed.

(** What [follow_pointers] returns for a well-formed instruction, read off
    operand by operand. *)
Lemma follow_pointers_value (s : state) (modes : list Z) (num_args : nat)
    (has_output : bool) :
  well_formed s modes num_args ->
  (forall i arg, (i < num_args)%nat -> operand s i = Some arg ->
     exists v, resolve s (has_output && (i =? num_args - 1)%nat)
                 (nth i modes 0) arg = Ok v) ->
  exists args,
    follow_pointers s modes num_args has_output = Ok args /\
    length args = num_args /\
    forall i arg, (i < num_args)%nat -> operand s i = Some arg ->
      Ok (default 0 (args !! i)) =
      resolve s (has_output && (i =? num_args - 1)%nat) (nth i modes 0) arg.
Proof.
  intros WF Hall.
  destruct (follow_pointers_total s modes num_args WF has_output Hall)
    as [args Hargs].
  exists args. split; [assumption|].
  destruct (follow_pointers_ok s modes num_args WF has_output args Hargs)
    as [Hlen Hok].
  split; [assumption|]. intros i arg Hi Hop.
  destruct (Hok i Hi) as (arg' & v & Hop' & Hres & Hv).
  assert (arg' = arg) as -> by congruence.
  rewrite Hv, Hres. reflexivity.
Qed.

(** X18.  Relative addressing composes with the adjustment of the base:
    after [109,n] has added [n] to the relative base, the add instruction
    [21101,a,b,l] stores [a + b] at the address [l + (base + n)], all sums
    being [int64] sums; the pointer has moved by 6. *)
Theorem relative_store_after_shift (s : state) (n a b l : Z) :
  0 <= pointer s ->
  (forall i x,
     [109; n; 21101; a; b; l] !! i = Some x ->
     code s !! (Z.to_nat (pointer s) + i)%nat = Some x) ->
  valid_address s (add64 l (add64 (relative_base s) n)) ->
  exists s1 s2 : state,
    run_body s = Return tt s1 /\
    run_body s1 = Return tt s2 /\
    relative_base s2 = add64 (relative_base s) n /\
    pointer s2 = pointer s + 6 /\
    np_getitem (code s2) (add64 l (add64 (relative_base s) n))
    = Ok (add64 a b).
Proof.
  intros Hp Hcells Hvalid.
  assert (Hcell : forall i x, [109; n; 21101; a; b; l] !! i = Some x ->
            code s !! Z.to_nat (pointer s + Z.of_nat i) = Some x).
  { intros i x Hx. rewrite <- (Hcells i x Hx). f_equal. lia. }
  assert (Hlen : pointer s + 6 <= len (code s)).
  { pose proof (lookup_lt_Some _ _ _ (Hcells 5%nat l eq_refl)).
    unfold len. lia. }
  (* the adjustment of the base *)
  assert (WF1 : well_formed s [1] 1) by (unfold well_formed; simpl; lia).
  destruct (follow_pointers_value s [1] 1 false WF1) as (args1 & H1 & L1 & V1).
  { intros i arg Hi _. assert (i = 0%nat) as -> by lia. simpl. eauto. }
  assert (Hop1 : operand s 0 = Some n).
  { unfold operand. rewrite <- (Hcell 1%nat n eq_refl). f_equal. lia. }
  specialize (V1 0%nat n ltac:(lia) Hop1). simpl in V1.
  destruct args1 as [|x1 [|y1 args1]]; simpl in L1; try lia.
  simpl in V1. injection V1 as ->.
  set (s1 := set_pointer (pointer s + 2)
               (set_relative_base (add64 (relative_base s) n) s)).
  assert (Hstep1 : run_body s = Return tt s1).
  { unfold run_body, operate.
    rewrite (np_getitem_nonneg (code s) (pointer s) 109 Hp)
      by (rewrite <- (Hcell 0%nat 109 eq_refl); f_equal; lia).
    change (parse_full_opcode 109) with (Ok ([1], 9)). simpl.
    unfold shift. rewrite H1. reflexivity. }
  (* the add *)
  assert (WF2 : well_formed s1 [1; 1; 2] 3)
    by (unfold well_formed; simpl; lia).
  destruct (follow_pointers_value s1 [1; 1; 2] 3 true WF2)
    as (args2 & H2 & L2 & V2).
  { intros i arg Hi _.
    destruct i as [|[|[|i]]]; simpl; try lia; eauto. }
  assert (Hop2 : forall i x, [a; b; l] !! i = Some x ->
            operand s1 i = Some x).
  { intros i x Hx. unfold operand. simpl.
    rewrite <- (Hcell (3 + i)%nat x Hx). f_equal. lia. }
  pose proof (V2 0%nat a ltac:(lia) (Hop2 0%nat a eq_refl)) as Va.
  pose proof (V2 1%nat b ltac:(lia) (Hop2 1%nat b eq_refl)) as Vb.
  pose proof (V2 2%nat l ltac:(lia) (Hop2 2%nat l eq_refl)) as Vl.
  destruct args2 as [|x2 [|y2 [|z2 [|w2 args2]]]]; simpl in L2; try lia.
  simpl in Va, Vb, Vl. injection Va as ->. injection Vb as ->.
  injection Vl as ->.
  destruct (store_cell (code s) (add64 l (add64 (relative_base s) n))
              (add64 a b) Hvalid)
    as (c & k & Hset & _ & Hget & _ & _).
  exists s1, (set_pointer (pointer s + 6) (set_code c s1)).
  split; [assumption|]. split; [|split; [reflexivity|split;
                                          [reflexivity|assumption]]].
  unfold run_body, operate.
  rewrite (np_getitem_nonneg (code s1) (pointer s1) 21101)
    by (simpl; try lia; rewrite <- (Hcell 2%nat 21101 eq_refl); f_equal; lia).
  change (parse_full_opcode 21101) with (Ok ([1; 1; 2], 1)). simpl.
  unfold add. rewrite H2. simpl code. rewrite Hset.
  change (pointer (set_code c s1)) with (pointer s + 2).
  rewrite <- Z.add_assoc. reflexivity.
Qed.

Lemma relative_store_after_shift_witness :
  exists s1 s2 : state,
    run_body (mkState [109; 5; 21101; 4; 5; 2; 99; 0; 0; 0] 0 0 [] []
                false true true) = Return tt s1 /\
    run_body s1 = Return tt s2 /\
    relative_base s2 = add64 0 5 /\
    pointer s2 = 0 + 6 /\
    np_getitem (code s2) (add64 2 (add64 0 5)) = Ok (add64 4 5).
Proof.
  apply (relative_store_after_shift
           (mkState [109; 5; 21101; 4; 5; 2; 99; 0; 0; 0] 0 0 [] []
              false true true) 5 4 5 2).
  - simpl. lia.
  - intros i x Hx. destruct i as [|[|[|[|[|[|i]]]]]]; simpl in *;
      try discriminate; exact Hx.
  - unfold valid_address. vm_compute. split; congruence.
Defined.

(** * Operand resolution for every instruction *)

(** The lemmas of this part assume nothing about the instruction: the
    operands are the cells [fetched], however few, and the modes are the
    padded list, however long. *)

Lemma check_modes_length_nth (modes : list Z) (num_args i : nat) :
  nth i (check_modes_length modes num_args) 0 = nth i modes 0.
Proof.
  unfold check_modes_length.
  destruct (Nat.ltb_spec (length modes) num_args) as [Hlt|Hge];
    [|reflexivity].
  rewrite !nth_lookup.
  destruct (Nat.lt_ge_cases i (length modes)) as [Hin|Hout].
  - rewrite lookup_app_l by assumption. reflexivity.
  - rewrite lookup_app_r by assumption.
    rewrite (proj2 (lookup_ge_None modes i) Hout). simpl.
    destruct (replicate _ _ !! _) as [x|] eqn:E; [|reflexivity].
    apply lookup_replicate in E as [-> _]. reflexivity.
Qed.

Lemma check_modes_length_lookup (modes : list Z) (num_args i : nat) :
  (i < num_args)%nat ->
  check_modes_length modes num_args !! i = Some (nth i modes 0).
Proof.
  intros Hi. pose proof (check_modes_length_ge modes num_args) as Hge.
  destruct (lookup_lt_is_Some_2 (check_modes_length modes num_args) i
              ltac:(lia)) as [m Hm].
  rewrite Hm. f_equal. rewrite <- (check_modes_length_nth modes num_args i).
  symmetry. apply nth_lookup_Some. exact Hm.
Qed.


Lemma fetched_length (s : state) (num_args : nat) :
  (length (fetched s num_args) <= num_args)%nat.
Proof. apply np_slice_length. Qed.


(** What [follow_pointers] has done when it returns. *)
Lemma follow_pointers_fetched (s : state) (modes : list Z) (num_args : nat)
    (has_output : bool) (args : list Z) :
  follow_pointers s modes num_args has_output = Ok args ->
  length args = length (fetched s num_args) /\
  (forall i lit,
     fetched s num_args !! i = Some lit ->
     (S i < length (fetched s num_args))%nat ->
     exists v, read_operand s (nth i modes 0) lit = Ok v /\
               args !! i = Some v) /\
  (exists lit m v,
     last (fetched s num_args) = Some lit /\
     last (check_modes_length modes num_args) = Some m /\
     resolve s has_output m lit = Ok v /\
     last args = Some v).
Proof.
  unfold follow_pointers. fold (fetched s num_args). intros Hrun.
  pose proof (fetched_length s num_args) as Hle.
  pose proof (check_modes_length_ge modes num_args) as Hge.
  destruct (follow_loop s _ _ (fetched s num_args)) as [args1|] eqn:Hloop;
    simpl in Hrun; [|discriminate].
  apply follow_loop_spec in Hloop as (Hlen1 & Hout & Hin); [|apply NoDup_seq].
  unfold getlast in Hrun.
  destruct (last args1) as [last_arg|] eqn:Hlast1; [|discriminate].
  destruct (last (check_modes_length modes num_args)) as [last_mode|]
    eqn:Hlastm; [|discriminate].
  simpl in Hrun.
  assert (Hpos : (1 <= length args1)%nat).
  { destruct args1; [discriminate|simpl; lia]. }
  assert (Hlast0 : last (fetched s num_args) = Some last_arg).
  { rewrite last_lookup, <- Hlen1, <- Hout, <- last_lookup; [assumption|].
    rewrite elem_of_seq. lia. }
  assert (Hfinal : exists v,
            resolve s has_output last_mode last_arg = Ok v /\
            args = <[(length args1 - 1)%nat := v]> args1).
  { rewrite last_lookup in Hlast1.
    replace (Init.Nat.pred (length args1)) with (length args1 - 1)%nat
      in Hlast1 by lia.
    unfold resolve, read_operand. destruct has_output.
    - destruct (last_mode =? 2); injection Hrun as <-; eexists;
        (split; [reflexivity|]); try reflexivity.
      symmetry. apply list_insert_id. assumption.
    - destruct (last_mode =? 0).
      + destruct (np_getitem (code s) last_arg); [|discriminate].
        injection Hrun as <-. eauto.
      + destruct (last_mode =? 2).
        * destruct (np_getitem (code s) _); [|discriminate].
          injection Hrun as <-. eauto.
        * injection Hrun as <-. eexists; split; [reflexivity|].
          symmetry. apply list_insert_id. assumption. }
  destruct Hfinal as (vl & Hvl & ->).
  split; [rewrite length_insert; assumption|]. split.
  - intros i lit Hlit Hi.
    destruct (Hin i) as (arg & mode & v & H1 & H2 & H3 & H4).
    { rewrite elem_of_seq. lia. }
    assert (arg = lit) as -> by congruence.
    rewrite check_modes_length_lookup in H2 by lia. injection H2 as <-.
    exists v. split; [assumption|].
    rewrite list_lookup_insert_ne by lia. assumption.
  - exists last_arg, last_mode, vl.
    split; [assumption|]. split; [reflexivity|]. split; [assumption|].
    rewrite last_lookup, length_insert.
    replace (Init.Nat.pred (length args1)) with (length args1 - 1)%nat
      by lia.
    apply list_lookup_insert_eq. lia.
Qed.


(** Two mode lists that give the read operands the same modes, and the
    store address modes that agree on being 2 or not, resolve alike. *)
Lemma follow_pointers_modes_agree (s : state) (modes1 modes2 : list Z)
    (num_args : nat) (m1 m2 : Z) :
  (forall i, (S i < num_args)%nat -> nth i modes1 0 = nth i modes2 0) ->
  last (check_modes_length modes1 num_args) = Some m1 ->
  last (check_modes_length modes2 num_args) = Some m2 ->
  (m1 =? 2) = (m2 =? 2) ->
  follow_pointers s modes1 num_args true =
  follow_pointers s modes2 num_args true.
Proof.
  intros Hread Hl1 Hl2 Hm. unfold follow_pointers.
  fold (fetched s num_args).
  pose proof (fetched_length s num_args) as Hle.
  rewrite (follow_loop_modes_ext s (check_modes_length modes1 num_args)
             (check_modes_length modes2 num_args)).
  - destruct (follow_loop _ _ _ _); [|reflexivity]. simpl.
    destruct (getlast IndexError_bounds a); [|reflexivity]. simpl.
    unfold getlast. rewrite Hl1, Hl2. simpl. rewrite Hm. reflexivity.
  - intros i Hi. rewrite elem_of_seq in Hi.
    rewrite !check_modes_length_lookup by lia. f_equal. apply Hread. lia.
Qed.



Lemma read_operand_invalid (s : state) (mode literal v : Z) :
  (mode = 0 /\ ~ valid_address s literal) \/
  (mode = 2 /\ ~ valid_address s (add64 (relative_base s) literal)) ->
  read_operand s mode literal = Ok v -> False.
Proof.
  unfold read_operand. intros [[-> Hbad]|[-> Hbad]] Hv; simpl in Hv;
    apply Hbad; apply np_getitem_range; eauto.
Qed.




(** C3, amended.  Immediate mode on a store address is not rejected.  The
    mode that add, multiply, input, less-than and equals apply to their
    store address is the last mode digit of the opcode (the operand's own
    digit when the opcode has no more mode digits than operands), and it
    is only ever compared with 2: when it is 1 the instruction does exactly
    what it does when it is 0, whatever the number of mode digits, and the
    literal is the store address. *)
Theorem immediate_write_target_is_position (s : state)
    (modes modes0 : list Z) :
  (last (check_modes_length modes 3) = Some 1 ->
   last (check_modes_length modes0 3) = Some 0 ->
   (forall i, (i < 2)%nat -> nth i modes 0 = nth i modes0 0) ->
   add modes s = add modes0 s /\
   multiply modes s = multiply modes0 s /\
   less_than modes s = less_than modes0 s /\
   equals modes s = equals modes0 s) /\
  (last (check_modes_length modes 1) = Some 1 ->
   last (check_modes_length modes0 1) = Some 0 ->
   input modes s = input modes0 s) /\
  (forall (num_args : nat) (args : list Z),
     last (check_modes_length modes num_args) = Some 1 ->
     follow_pointers s modes num_args true = Ok args ->
     last args = last (fetched s num_args)).
Proof.
  split; [|split].
  - intros H1 H0 Hread.
    assert (Hsame : follow_pointers s modes 3 true =
                    follow_pointers s modes0 3 true).
    { apply (follow_pointers_modes_agree s modes modes0 3 1 0);
        try assumption; try reflexivity.
      intros i Hi. apply Hread. lia. }
    unfold add, multiply, less_than, equals. rewrite Hsame.
    repeat split; reflexivity.
  - intros H1 H0.
    assert (Hsame : follow_pointers s modes 1 true =
                    follow_pointers s modes0 1 true).
    { apply (follow_pointers_modes_agree s modes modes0 1 1 0);
        try assumption; try reflexivity.
      intros i Hi. lia. }
    unfold input. rewrite Hsame. reflexivity.
  - intros num_args args H1 Hrun.
    destruct (follow_pointers_fetched s modes num_args true args Hrun)
      as (_ & _ & lit & m & v & Hl0 & Hlm & Hres & Hlv).
    assert (m = 1) as -> by congruence.
    unfold resolve in Hres. simpl in Hres. congruence.
Qed.

Lemma immediate_write_target_is_position_witness :
  last (check_modes_length [1; 1; 1] 3) = Some 1 /\
  last (check_modes_length [1; 1] 3) = Some 0 /\
  add [1; 1; 1] immediate_target_example =
  add [1; 1] immediate_target_example.
Proof.
  split; [reflexivity|]. split; [reflexivity|].
  apply (proj1 (immediate_write_target_is_position immediate_target_example
                  [1; 1; 1] [1; 1])); try reflexivity.
  intros i Hi. destruct i as [|[|i]]; try reflexivity. lia.
Defined.

(** An opcode method that cannot resolve its operands raises what
    [follow_pointers] raises and leaves the machine alone. *)
Lemma opfunc_resolution_error (opcode : Z)
    (opfunc : list Z -> state -> exec Z) (modes : list Z) (s : state)
    (e : pyerror) :
  opcode_dict opcode = Some opfunc ->
  opcode <> 99 ->
  follow_pointers s modes (Z.to_nat (arity opcode)) (stores opcode) = Err e ->
  opfunc modes s = Raise e s.
Proof.
  intros Hd Hh Herr.
  destruct (opcode_dict_inv _ _ Hd)
    as [[-> ->]|[[-> ->]|[[-> ->]|[[-> ->]|[[-> ->]|[[-> ->]|[[-> ->]|
        [[-> ->]|[[-> ->]|[-> ->]]]]]]]]]];
    try congruence;
    cbv [arity stores Z.to_nat Pos.to_nat Pos.iter_op Init.Nat.add] in Herr;
    cbv delta [add multiply input output jump_if_true jump_if_false
               less_than equals shift];
    cbv beta; rewrite Herr; reflexivity.
Qed.

(** C7, amended.  An address is accepted when it lies in
    [-capacity, capacity), a negative address counting from the end of the
    memory.  Every address the code resolves outside that range raises
    [IndexError] in the instruction that resolves it: the pointer at the
    fetch; an operand before the last whose own mode digit is 0 or 2; the
    last operand of an instruction that does not store, when the last mode
    digit of the opcode is 0 or 2; and the store address of add, multiply,
    less-than, equals and input.  This holds for every list of mode digits
    and every pointer, the operands being the cells fetched.  An
    instruction that raises has not changed any memory cell. *)
Theorem out_of_range_access_raises :
  (forall s : state,
     ~ valid_address s (pointer s) ->
     run_body s = Raise IndexError_bounds s) /\
  (forall (s : state) (modes : list Z) (num_args : nat) (has_output : bool)
          (i : nat) (literal : Z),
     fetched s num_args !! i = Some literal ->
     (S i < length (fetched s num_args))%nat ->
     (nth i modes 0 = 0 /\ ~ valid_address s literal) \/
     (nth i modes 0 = 2 /\
      ~ valid_address s (add64 (relative_base s) literal)) ->
     follow_pointers s modes num_args has_output = Err IndexError_bounds) /\
  (forall (s : state) (modes : list Z) (num_args : nat)
          (literal mode : Z),
     last (fetched s num_args) = Some literal ->
     last (check_modes_length modes num_args) = Some mode ->
     (mode = 0 /\ ~ valid_address s literal) \/
     (mode = 2 /\ ~ valid_address s (add64 (relative_base s) literal)) ->
     follow_pointers s modes num_args false = Err IndexError_bounds) /\
  (forall (s : state) (v : Z) (modes : list Z) (opcode : Z) (e : pyerror),
     np_getitem (code s) (pointer s) = Ok v ->
     parse_full_opcode v = Ok (modes, opcode) ->
     opcode_dict opcode <> None ->
     opcode <> 99 ->
     follow_pointers s modes (Z.to_nat (arity opcode)) (stores opcode)
     = Err e ->
     run_body s = Raise e s) /\
  (forall (s : state) (modes : list Z) (arg1 arg2 target : Z),
     follow_pointers s modes 3 true = Ok [arg1; arg2; target] ->
     ~ valid_address s target ->
     add modes s = Raise IndexError_bounds s /\
     multiply modes s = Raise IndexError_bounds s /\
     less_than modes s = Raise IndexError_bounds s /\
     equals modes s = Raise IndexError_bounds s) /\
  (forall (s : state) (modes : list Z) (target : Z),
     follow_pointers s modes 1 true = Ok [target] ->
     ~ valid_address s target ->
     match input_queue s with
     | [] => input modes s = Raise IndexError_pop s
     | _ :: q => input modes s = Raise IndexError_bounds (set_input_queue q s)
     end) /\
  (forall (s s' : state) (e : pyerror),
     run_body s = Raise e s' -> code s' = code s).
Proof.
  split; [|split; [|split; [|split; [|split; [|split]]]]].
  - intros s Hout. unfold run_body.
    rewrite np_getitem_outside by exact Hout. reflexivity.
  - intros s modes num_args has_output i literal Hlit Hi Hbad.
    destruct (follow_pointers s modes num_args has_output) as [args|e]
      eqn:Hrun.
    + exfalso.
      destruct (follow_pointers_fetched s modes num_args has_output args Hrun)
        as (_ & Hread & _).
      destruct (Hread i literal Hlit Hi) as (v & Hv & _).
      exact (read_operand_invalid s _ _ _ Hbad Hv).
    + f_equal. eapply follow_pointers_raises_IndexError; [|exact Hrun].
      pose proof (fetched_length s num_args). lia.
  - intros s modes num_args literal mode Hl0 Hlm Hbad.
    destruct (follow_pointers s modes num_args false) as [args|e] eqn:Hrun.
    + exfalso.
      destruct (follow_pointers_fetched s modes num_args false args Hrun)
        as (_ & _ & lit & m & v & Hl0' & Hlm' & Hres & _).
      assert (lit = literal) as -> by congruence.
      assert (m = mode) as -> by congruence.
      unfold resolve in Hres.
      exact (read_operand_invalid s _ _ _ Hbad Hres).
    + f_equal. eapply follow_pointers_raises_IndexError; [|exact Hrun].
      pose proof (fetched_length s num_args) as Hle.
      destruct (fetched s num_args); [discriminate|simpl in Hle; lia].
  - intros s v modes opcode e Hfetch Hparse Hd Hh Herr.
    unfold run_body, operate. rewrite Hfetch, Hparse.
    destruct (opcode_dict opcode) as [opfunc|] eqn:Hop; [|congruence].
    rewrite (opfunc_resolution_error opcode opfunc modes s e Hop Hh Herr).
    reflexivity.
  - intros s modes arg1 arg2 target Hargs Hout.
    unfold add, multiply, less_than, equals. rewrite Hargs.
    rewrite !np_setitem_outside by exact Hout. repeat split; reflexivity.
  - intros s modes target Hargs Hout. unfold input.
    rewrite Hargs. simpl. destruct (input_queue s) as [|x q]; [reflexivity|].
    rewrite np_setitem_obj_outside by exact Hout. reflexivity.
  - intros s s' e. apply run_body_raise.
Qed.

Lemma out_of_range_access_raises_witness :
  follow_pointers far_target_example [1; 1] 3 true = Ok [4; 5; 9] /\
  ~ valid_address far_target_example 9 /\
  add [1; 1] far_target_example = Raise IndexError_bounds far_target_example.
Proof.
  assert (Hout : ~ valid_address far_target_example 9).
  { unfold valid_address, len. simpl. lia. }
  split; [reflexivity|]. split; [exact Hout|].
  exact (proj1 (proj1 (proj2 (proj2 (proj2 (proj2
                  out_of_range_access_raises))))
                  far_target_example [1; 1] 4 5 9 eq_refl Hout)).
Defined.

Example position_read_out_of_range :
  run_body (mkState [4; 1000; 99] 0 0 [] [] false true true)
  = Raise IndexError_bounds (mkState [4; 1000; 99] 0 0 [] [] false true true).
Proof. reflexivity. Qed.
